(** * Kong route tester: a shallow embedding of [main.go]

    The development follows the source file function by function:
    [handleTemplating], [hasAuthPlugin], [expandRegexPath], [testEndpoint],
    [printResult], [truncate], [testRoutes], [printSummary],
    [readKongConfig] and [main].

    Go strings and byte slices are lists of bytes ([list ascii]); Go [int]
    values are in [Z].  The counters of the program ([requestCount] and the
    tallies of [printSummary]) are incremented at most once per element of a
    slice, so they stay below [2^63] and no wrap-around is written out.

    The process environment is the argument [Getenv] of [handleTemplating].
    What [testRoutes] takes from outside (the network, the clock, the JSON
    decoder and the order in which the Go runtime walks a map) is a field of
    a [Runtime] record; its effects are threaded through a small
    state-and-panic monad.  [readKongConfig] and [main] take the file
    system, the YAML decoder and the environment from a [Host] record:
    [handleTemplating] works on the bytes read and [testRoutes] on the
    decoded [KongConfig]. *)

From Stdlib Require Import List String Ascii ZArith Bool Lia Permutation.
Import ListNotations.

Open Scope Z_scope.

Set Warnings "-register-all".

(** ** Go strings *)

Definition gostring := list ascii.

Definition str (s : string) : gostring := list_ascii_of_string s.
Arguments str : simpl never.

Module strings.

(** [strings.HasPrefix(s, prefix)] *)
Fixpoint HasPrefix (s prefix : gostring) {struct prefix} : bool :=
  match prefix with
  | [] => true
  | c :: prefix' =>
      match s with
      | [] => false
      | d :: s' => Ascii.eqb d c && HasPrefix s' prefix'
      end
  end.

(** [strings.Contains(s, substr)] *)
Fixpoint Contains (s substr : gostring) : bool :=
  HasPrefix s substr ||
  match s with
  | [] => false
  | _ :: s' => Contains s' substr
  end.

(** The scan of [strings.ReplaceAll]: [skip] counts the bytes of an
    occurrence of [old] that was just replaced and are still to be passed
    over, so that occurrences do not overlap. *)
Fixpoint replace_from (old new : gostring) (skip : nat) (s : gostring)
  : gostring :=
  match s with
  | [] => []
  | c :: s' =>
      match skip with
      | S k => replace_from old new k s'
      | O =>
          if HasPrefix s old
          then new ++ replace_from old new (Nat.pred (List.length old)) s'
          else c :: replace_from old new 0 s'
      end
  end.

(** [strings.ReplaceAll(s, old, new)] for a non-empty [old], which is the
    only way the program calls it (every key of the replacement table is a
    non-empty literal).  For an empty [old] Go inserts [new] around every
    rune; that case is outside the program and the model returns [s]. *)
Definition ReplaceAll (s old new : gostring) : gostring :=
  match old with
  | [] => s
  | _ :: _ => replace_from old new 0 s
  end.

(** [strings.Split(s, sep)] for a one-byte separator. *)
Fixpoint Split (s : gostring) (sep : ascii) : list gostring :=
  match s with
  | [] => [[]]
  | c :: s' =>
      if Ascii.eqb c sep then [] :: Split s' sep
      else
        match Split s' sep with
        | [] => [[c]]
        | p :: ps => (c :: p) :: ps
        end
  end.

End strings.

(** Equality of Go strings, as a boolean. *)
Fixpoint gostring_eqb (a b : gostring) : bool :=
  match a, b with
  | [], [] => true
  | c :: a', d :: b' => Ascii.eqb c d && gostring_eqb a' b'
  | _, _ => false
  end.

(** ** Kong configuration structures *)

(** A decoded [interface{}] value (YAML plugin configuration, JSON error
    bodies).  Numbers keep their literal: the program never looks at them. *)
Inductive any : Type :=
| AnyNil
| AnyBool (b : bool)
| AnyNumber (literal : gostring)
| AnyString (s : gostring)
| AnySlice (l : list any)
| AnyMap (m : list (gostring * any)).

Module Plugin.
Record t := mk {
  Name : gostring;
  Config : list (gostring * any)
}.
End Plugin.

Module Route.
Record t := mk {
  Name : gostring;
  Paths : list gostring;
  Methods : list gostring;
  Hosts : list gostring;
  Plugins : list Plugin.t;
  Priority : Z
}.
End Route.

Module Service.
Record t := mk {
  Name : gostring;
  URL : gostring;
  Plugins : list Plugin.t;
  Routes : list Route.t
}.
End Service.

Module KongConfig.
Record t := mk {
  Services : list Service.t
}.
End KongConfig.

(** ** Test result structure *)

Module TestResult.
Record t := mk {
  Service : gostring;
  Route : gostring;
  Path : gostring;
  Method : gostring;
  RequiresAuth : bool;
  StatusCode : Z;
  Error : option gostring;
  Message : gostring
}.
End TestResult.

(** ** Configuration flags *)

Record Flags := {
  baseURL : gostring;
  authToken : gostring;
  testAuth : bool;
  testUnauth : bool;
  verbose : bool;
  dryRun : bool;
  maxRequests : Z
}.

(** ** [hasAuthPlugin] *)

(** One of the two loops of [hasAuthPlugin]: [true] as soon as a plugin is
    named ["auth"]. *)
Fixpoint any_auth (plugins : list Plugin.t) : bool :=
  match plugins with
  | [] => false
  | plugin :: rest =>
      if gostring_eqb (Plugin.Name plugin) (str "auth") then true
      else any_auth rest
  end.

Definition hasAuthPlugin (route : Route.t) (service : Service.t) : bool :=
  if any_auth (Route.Plugins route) then true
  else if any_auth (Service.Plugins service) then true
  else false.

(** ** [expandRegexPath] *)

(** The map literal of [expandRegexPath], in the order it is written. *)
Definition replacements : list (gostring * gostring) :=
  [ (str "(?<client_id>[0-9a-fA-F-]+)", str "3a45625e-fd29-47a5-8294-e30fe2d3d391");
    (str "(?<seat_id>[0-9a-fA-F-]+)", str "123e4567-e89b-12d3-a456-426614174000");
    (str "(?<invite_token>[0-9a-fA-F-]+)", str "987fcdeb-51a2-43e1-b210-0123456789ab");
    (str "(?<test_id>[0-9a-fA-F-]+)", str "test-id-123");
    (str "(?<user_id>[^/]+)", str "user123");
    (str "(?<embed_id>[0-9a-fA-F-]+)", str "embed-456");
    (str "[0-9a-fA-F-]+", str "abc123def456");
    (str "[a-zA-Z0-9_-]+", str "test-value");
    (str "[^/]+", str "example");
    (str "(.*)", str "path") ].

(** The loop [for pattern, replacement := range replacements] walks a Go map.
    Go leaves the order of that walk unspecified (and randomises it), so the
    walk is over [order], the entries in the order the runtime visits them:
    some permutation of [replacements]. *)
Definition expandRegexPath (order : list (gostring * gostring))
    (path : gostring) : gostring :=
  fold_left
    (fun result entry => strings.ReplaceAll result (fst entry) (snd entry))
    order path.

(** ** [handleTemplating] *)

Module regexp.

(** The longest prefix of [s] whose bytes all satisfy [p], and the rest:
    a greedy repetition of a byte class of the pattern. *)
Fixpoint span (p : ascii -> bool) (s : gostring) : gostring * gostring :=
  match s with
  | [] => ([], [])
  | c :: s' =>
      if p c then let (a, b) := span p s' in (c :: a, b)
      else ([], s)
  end.

Definition name_byte (c : ascii) : bool :=
  negb (Ascii.eqb c ":") && negb (Ascii.eqb c "}").

Definition default_byte (c : ascii) : bool :=
  negb (Ascii.eqb c "}").

Definition op_byte (c : ascii) : bool :=
  Ascii.eqb c "?" || Ascii.eqb c "=".

(** A match, at the start of [s], of the pattern compiled in
    [handleTemplating] (main.go, line 105): a dollar sign and an opening
    brace; group 1, one or more bytes other than a colon and a closing
    brace; optionally group 2, a colon, then a question mark or an equals
    sign, then any number of bytes other than a closing brace; and a closing
    brace.  The result is the matched bytes, or [None].
    Both classes exclude the byte that has to
    follow them, so the greedy runs are the only candidates and giving
    bytes back never yields another match (lemma [re_match_iff] below).
    The classes exclude ASCII bytes only, so matching byte by byte agrees
    with Go's matching rune by rune. *)
Definition re_match (s : gostring) : option gostring :=
  match s with
  | "$"%char :: "{"%char :: r =>
      let (name, r1) := span name_byte r in
      match name with
      | [] => None
      | _ :: _ =>
          match r1 with
          | "}"%char :: _ => Some (str "${" ++ name ++ str "}")
          | ":"%char :: op :: r2 =>
              if op_byte op then
                let (dflt, r3) := span default_byte r2 in
                match r3 with
                | "}"%char :: _ =>
                    Some (str "${" ++ name ++ ":"%char :: op :: dflt ++ str "}")
                | _ => None
                end
              else None
          | _ => None
          end
      end
  | _ => None
  end.

(** The scan of [Regexp.ReplaceAllFunc]: matches are looked for from
    left to right and do not overlap; [skip] counts the bytes of the last
    match still to be passed over.  (The pattern has no empty match.) *)
Fixpoint replace_from (repl : gostring -> gostring) (skip : nat)
    (src : gostring) : gostring :=
  match src with
  | [] => []
  | c :: rest =>
      match skip with
      | S k => replace_from repl k rest
      | O =>
          match re_match src with
          | Some m => repl m ++ replace_from repl (Nat.pred (List.length m)) rest
          | None => c :: replace_from repl 0 rest
          end
      end
  end.

Definition ReplaceAllFunc (src : gostring) (repl : gostring -> gostring)
  : gostring :=
  replace_from repl 0 src.

End regexp.

(** The function literal passed to [ReplaceAllFunc].  [Getenv] is
    [os.Getenv]: the value of a variable, empty when it is not set.
    [match[2:len(match)-1]] is in range for every match (a match has at
    least four bytes). *)
Definition templating_repl (Getenv : gostring -> gostring) (match_ : gostring)
  : gostring :=
  let parts :=
    strings.Split (firstn (List.length match_ - 3) (skipn 2 match_)) ":" in
  let envVar := hd [] parts in
  let value := Getenv envVar in
  if negb (gostring_eqb value []) then value
  else if strings.Contains envVar (str "SERVICE_ADDRESS")
  then str "http://services.sms.community:10000"
  else str "http://placeholder".

Definition handleTemplating (Getenv : gostring -> gostring) (data : gostring)
  : gostring :=
  regexp.ReplaceAllFunc data (templating_repl Getenv).

(** ** The outside of the program *)

Module http.
Record Request := mkRequest {
  Method : gostring;
  URL : gostring;
  Body : option gostring;
  Header : list (gostring * gostring)
}.

(** A response, with the bytes [io.ReadAll] finds in its body. *)
Record Response := mkResponse {
  StatusCode : Z;
  ResponseBody : gostring
}.

(** [Header.Set(key, value)]: the value replaces what the key had. *)
Definition Header_Set (h : list (gostring * gostring)) (key value : gostring)
  : list (gostring * gostring) :=
  (key, value) :: filter (fun kv => negb (gostring_eqb (fst kv) key)) h.
End http.

(** What the program does not compute itself.  [World] is the state of
    everything outside the process (the probed server, the network, the
    clock, the seed of the runtime's map walks). *)
Record Runtime := {
  World : Type;
  (** the error [http.NewRequest] reports for a method and a URL, if any;
      the body plays no part in it *)
  NewRequest_error : gostring -> gostring -> option gostring;
  (** [client.Do]: a response, or a transport error *)
  client_Do : http.Request -> World -> (http.Response + gostring) * World;
  (** [time.Sleep], in milliseconds *)
  time_Sleep : Z -> World -> World;
  (** [json.Unmarshal] into a [map[string]interface{}]: the decoded object,
      or [None] when it reports an error *)
  json_Unmarshal : gostring -> option (list (gostring * any));
  (** the order in which one [range] over the replacement map of
      [expandRegexPath] visits its entries *)
  range_replacements : World -> list (gostring * gostring) * World;
  range_replacements_perm :
    forall w, Permutation replacements (fst (range_replacements w))
}.

(** [http.NewRequest(method, url, body)]: Go returns a nil request together
    with the error, and a nil error together with the request. *)
Definition http_NewRequest (rt : Runtime) (method url : gostring)
    (body : option gostring) : option http.Request * option gostring :=
  match NewRequest_error rt method url with
  | Some err => (None, Some err)
  | None => (Some (http.mkRequest method url body []), None)
  end.

(** A probe: the arguments of one call of [testEndpoint]. *)
Record Probe := mkProbe {
  probe_service : gostring;
  probe_route : gostring;
  probe_path : gostring;
  probe_method : gostring;
  probe_requiresAuth : bool
}.

(** What [printResult] and [testRoutes] write to standard output, one
    constructor per format string, with the arguments of the format. *)
Inductive Glyph := GlyphCheck | GlyphCross | GlyphCircle.

Inductive Line :=
| SkippingLine (service : gostring)
| ResultLine (status : Glyph) (service path method : gostring)
    (statusCode : Z) (authStr : gostring) (rest : gostring).

(** The state threaded through the run.  [issued] is a ghost field: the
    calls of [testEndpoint] made so far, oldest first. *)
Record State (rt : Runtime) := mkState {
  world : World rt;
  stdout : list Line;
  issued : list Probe
}.
Arguments mkState {rt}.
Arguments world {rt}.
Arguments stdout {rt}.
Arguments issued {rt}.

(** A computation ends with a value or with a run-time panic (the
    dereference of a nil pointer), which ends the program. *)
Inductive Exec (A : Type) :=
| Ok (a : A)
| Panic.
Arguments Ok {A}.
Arguments Panic {A}.

Definition M (rt : Runtime) (A : Type) : Type :=
  State rt -> Exec A * State rt.

Definition ret {rt A} (a : A) : M rt A := fun s => (Ok a, s).

Definition bind {rt A B} (m : M rt A) (k : A -> M rt B) : M rt B :=
  fun s =>
    match m s with
    | (Ok a, s') => k a s'
    | (Panic, s') => (Panic, s')
    end.

Definition panic {rt A} : M rt A := fun s => (Panic, s).

Notation "x <- m ;; k" := (bind m (fun x => k))
  (at level 61, m at next level, right associativity).
Notation "' pat <- m ;; k" := (bind m (fun x => match x with pat => k end))
  (at level 61, pat pattern, m at next level, right associativity).

Definition Println {rt} (l : Line) : M rt unit :=
  fun s => (Ok tt, mkState (world s) (stdout s ++ [l]) (issued s)).

Definition Sleep {rt} (ms : Z) : M rt unit :=
  fun s => (Ok tt, mkState (time_Sleep rt ms (world s)) (stdout s) (issued s)).

Definition Do {rt} (req : http.Request) : M rt (http.Response + gostring) :=
  fun s =>
    let (r, w) := client_Do rt req (world s) in
    (Ok r, mkState w (stdout s) (issued s)).

Definition range_order {rt} : M rt (list (gostring * gostring)) :=
  fun s =>
    let (order, w) := range_replacements rt (world s) in
    (Ok order, mkState w (stdout s) (issued s)).

Definition issue {rt} (p : Probe) : M rt unit :=
  fun s => (Ok tt, mkState (world s) (stdout s) (issued s ++ [p])).

(** [req.Header.Set(key, value)] through the pointer [req]: a nil [req]
    panics. *)
Definition Request_Header_Set {rt} (req : option http.Request)
    (key value : gostring) : M rt (option http.Request) :=
  match req with
  | None => panic
  | Some r =>
      ret (Some (http.mkRequest (http.Method r) (http.URL r) (http.Body r)
                   (http.Header_Set (http.Header r) key value)))
  end.

(** [client.Do(req)]; a nil [req] panics. *)
Definition client_Do_ptr {rt} (req : option http.Request)
  : M rt (http.Response + gostring) :=
  match req with
  | None => panic
  | Some r => Do r
  end.

(** ** [truncate] and [printResult] *)

(** [truncate(s, length)]; the program calls it with 40 and 50 (below 3 the
    slice expression of the source would be out of range). *)
Definition truncate (s : gostring) (length : nat) : gostring :=
  if (List.length s <=? length)%nat then s
  else firstn (length - 3) s ++ str "...".

Definition is_some {A} (o : option A) : bool :=
  match o with Some _ => true | None => false end.

Section Engine.

Variable rt : Runtime.
Variable flags : Flags.

Definition printResult (result : TestResult.t) : M rt unit :=
  let code := TestResult.StatusCode result in
  if negb (verbose flags) && (200 <=? code) && (code <? 400) then ret tt
  else
    let status :=
      if (400 <=? code) || is_some (TestResult.Error result) then GlyphCross
      else if code =? 0 then GlyphCircle
      else GlyphCheck in
    let authStr :=
      if TestResult.RequiresAuth result then str " [AUTH]" else [] in
    let rest :=
      match TestResult.Error result with
      | Some err => str " ERROR: " ++ err
      | None =>
          if negb (gostring_eqb (TestResult.Message result) [])
          then str " - " ++ truncate (TestResult.Message result) 50
          else []
      end in
    Println (ResultLine status (TestResult.Service result)
               (truncate (TestResult.Path result) 40)
               (TestResult.Method result) code authStr rest).

(** ** [testEndpoint] *)

Definition dquote : ascii := "034"%char.

(** The sample body of POST, PUT and PATCH requests: an object with the
    one key [test] and the value [data]. *)
Definition sample_body : gostring :=
  str "{" ++ dquote :: str "test" ++ dquote :: str ": "
    ++ dquote :: str "data" ++ dquote :: str "}".

Definition has_body (method : gostring) : bool :=
  gostring_eqb method (str "POST") || gostring_eqb method (str "PUT")
  || gostring_eqb method (str "PATCH").

(** A map index: the value of the first entry with the key. *)
Fixpoint index (m : list (gostring * any)) (key : gostring) : option any :=
  match m with
  | [] => None
  | (k, v) :: m' => if gostring_eqb k key then Some v else index m' key
  end.

Definition message_field (m : list (gostring * any)) (old : gostring)
  : gostring :=
  match index m (str "message") with
  | Some (AnyString msg) => msg
  | _ => old
  end.

(** The message taken from the body of a response with status 400 or
    more; [old] is the message the result had. *)
Definition error_message (body old : gostring) : gostring :=
  if (0 <? List.length body)%nat then
    match json_Unmarshal rt body with
    | Some errorResp =>
        match index errorResp (str "errors") with
        | Some (AnySlice (first :: _)) =>
            match first with
            | AnyMap errorMap => message_field errorMap old
            | _ => old
            end
        | _ => message_field errorResp old
        end
    | None => body
    end
  else old.

Definition with_Message (r : TestResult.t) (msg : gostring) : TestResult.t :=
  TestResult.mk (TestResult.Service r) (TestResult.Route r)
    (TestResult.Path r) (TestResult.Method r) (TestResult.RequiresAuth r)
    (TestResult.StatusCode r) (TestResult.Error r) msg.

Definition with_Error (r : TestResult.t) (err : gostring) : TestResult.t :=
  TestResult.mk (TestResult.Service r) (TestResult.Route r)
    (TestResult.Path r) (TestResult.Method r) (TestResult.RequiresAuth r)
    (TestResult.StatusCode r) (Some err) (TestResult.Message r).

Definition with_StatusCode (r : TestResult.t) (code : Z) : TestResult.t :=
  TestResult.mk (TestResult.Service r) (TestResult.Route r)
    (TestResult.Path r) (TestResult.Method r) (TestResult.RequiresAuth r)
    code (TestResult.Error r) (TestResult.Message r).

Definition testEndpoint (service route path method : gostring)
    (requiresAuth : bool) : M rt TestResult.t :=
  _ <- issue (mkProbe service route path method requiresAuth) ;;
  let result :=
    TestResult.mk service route path method requiresAuth 0 None [] in
  if dryRun flags then
    let result := with_Message result (str "DRY RUN") in
    _ <- printResult result ;;
    ret result
  else
    let url := baseURL flags ++ path in
    '(req, err) <-
      (if has_body method then
         let (req, err) := http_NewRequest rt method url (Some sample_body) in
         req <- Request_Header_Set req (str "Content-Type")
                  (str "application/json") ;;
         ret (req, err)
       else ret (http_NewRequest rt method url None)) ;;
    match err with
    | Some e =>
        let result := with_Error result e in
        _ <- printResult result ;;
        ret result
    | None =>
        req <-
          (if requiresAuth && negb (gostring_eqb (authToken flags) [])
           then Request_Header_Set req (str "Authorization")
                  (str "Bearer " ++ authToken flags)
           else ret req) ;;
        resp <- client_Do_ptr req ;;
        match resp with
        | inr e =>
            let result := with_Error result e in
            _ <- printResult result ;;
            ret result
        | inl resp =>
            let result := with_StatusCode result (http.StatusCode resp) in
            let result :=
              if 400 <=? http.StatusCode resp
              then with_Message result
                     (error_message (http.ResponseBody resp)
                        (TestResult.Message result))
              else result in
            _ <- printResult result ;;
            ret result
        end
    end.

(** ** [testRoutes] *)

(** The two variables of [testRoutes] that its loops update. *)
Record Acc := mkAcc {
  results : list TestResult.t;
  requestCount : Z
}.

(** How a loop body leaves: on to the next iteration, or out of
    [testRoutes] through [return results]. *)
Inductive Ctl :=
| Next (a : Acc)
| Return (rs : list TestResult.t).

Definition default_methods : list gostring :=
  [str "GET"; str "POST"; str "PUT"; str "DELETE"; str "PATCH"].

(** [for _, method := range methods] *)
Fixpoint testRoutes_methods (service : Service.t) (route : Route.t)
    (path : gostring) (hasAuth : bool) (methods : list gostring) (a : Acc)
  : M rt Ctl :=
  match methods with
  | [] => ret (Next a)
  | method :: methods' =>
      if (0 <? maxRequests flags) && (maxRequests flags <=? requestCount a)
      then ret (Return (results a))
      else
        result <- testEndpoint (Service.Name service) (Route.Name route)
                    path method hasAuth ;;
        let a := mkAcc (results a ++ [result]) (requestCount a + 1) in
        _ <- Sleep 100 ;;
        testRoutes_methods service route path hasAuth methods' a
  end.

(** [for _, path := range route.Paths] *)
Fixpoint testRoutes_paths (service : Service.t) (route : Route.t)
    (hasAuth : bool) (methods : list gostring) (paths : list gostring)
    (a : Acc) : M rt Ctl :=
  match paths with
  | [] => ret (Next a)
  | path :: paths' =>
      path <-
        (if strings.Contains path (str "(?<")
         then order <- range_order ;; ret (expandRegexPath order path)
         else ret path) ;;
      c <- testRoutes_methods service route path hasAuth methods a ;;
      match c with
      | Next a => testRoutes_paths service route hasAuth methods paths' a
      | Return rs => ret (Return rs)
      end
  end.

(** [for _, route := range service.Routes] *)
Fixpoint testRoutes_routes (service : Service.t) (routes : list Route.t)
    (a : Acc) : M rt Ctl :=
  match routes with
  | [] => ret (Next a)
  | route :: routes' =>
      let hasAuth := hasAuthPlugin route service in
      if hasAuth && negb (testAuth flags)
      then testRoutes_routes service routes' a
      else if negb hasAuth && negb (testUnauth flags)
      then testRoutes_routes service routes' a
      else
        let methods := Route.Methods route in
        let methods :=
          if (List.length methods =? 0)%nat then default_methods
          else methods in
        c <- testRoutes_paths service route hasAuth methods
               (Route.Paths route) a ;;
        match c with
        | Next a => testRoutes_routes service routes' a
        | Return rs => ret (Return rs)
        end
  end.

Definition skipped_service (name : gostring) : bool :=
  strings.Contains name (str "test")
  || strings.Contains name (str "health-check")
  || gostring_eqb name (str "atlantis")
  || gostring_eqb name (str "atlantis-legacy").

(** [for _, service := range config.Services] *)
Fixpoint testRoutes_services (services : list Service.t) (a : Acc)
  : M rt Ctl :=
  match services with
  | [] => ret (Next a)
  | service :: services' =>
      if skipped_service (Service.Name service) then
        _ <- (if verbose flags
              then Println (SkippingLine (Service.Name service))
              else ret tt) ;;
        testRoutes_services services' a
      else
        c <- testRoutes_routes service (Service.Routes service) a ;;
        match c with
        | Next a => testRoutes_services services' a
        | Return rs => ret (Return rs)
        end
  end.

Definition testRoutes (config : KongConfig.t) : M rt (list TestResult.t) :=
  c <- testRoutes_services (KongConfig.Services config) (mkAcc [] 0) ;;
  match c with
  | Next a => ret (results a)
  | Return rs => ret rs
  end.

End Engine.

(** ** [printSummary] *)

(** [m[key]++] on a map of counters, kept as a list of the keys with their
    counts. *)
Fixpoint incr {K : Type} (eqb : K -> K -> bool) (m : list (K * Z)) (key : K)
  : list (K * Z) :=
  match m with
  | [] => [(key, 1)]
  | (k, n) :: m' =>
      if eqb k key then (k, n + 1) :: m' else (k, n) :: incr eqb m' key
  end.

(** The variables of [printSummary] that its first loop updates. *)
Record Tally := mkTally {
  successful : Z;
  authFailed : Z;
  otherErrors : Z;
  byService : list (gostring * Z);
  byStatusCode : list (Z * Z)
}.

(** The body of the first loop of [printSummary]. *)
Definition tally_result (t : Tally) (result : TestResult.t) : Tally :=
  let byService := incr gostring_eqb (byService t) (TestResult.Service result) in
  let byStatusCode :=
    incr Z.eqb (byStatusCode t) (TestResult.StatusCode result) in
  let code := TestResult.StatusCode result in
  if (200 <=? code) && (code <? 400) then
    mkTally (successful t + 1) (authFailed t) (otherErrors t)
      byService byStatusCode
  else if code =? 401 then
    mkTally (successful t) (authFailed t + 1) (otherErrors t)
      byService byStatusCode
  else if (400 <=? code) || is_some (TestResult.Error result) then
    mkTally (successful t) (authFailed t) (otherErrors t + 1)
      byService byStatusCode
  else
    mkTally (successful t) (authFailed t) (otherErrors t)
      byService byStatusCode.

(** The second loop of [printSummary]: the results it lists under
    "Potentially Problematic Routes", in the order it prints them. *)
Fixpoint problematic_routes (results : list TestResult.t)
  : list TestResult.t :=
  match results with
  | [] => []
  | result :: rest =>
      if (TestResult.StatusCode result =? 401)
         && negb (TestResult.RequiresAuth result)
      then result :: problematic_routes rest
      else problematic_routes rest
  end.

(** What [printSummary] prints: the total, the three tallies, the two
    breakdowns and the list of problematic routes.  (The percentages, which
    are floating-point quotients of the tallies by the total, and the order
    of the lines of the two breakdowns, which is the order of a map walk,
    are left out.) *)
Record Summary := mkSummary {
  total : Z;
  tally : Tally;
  problematic : list TestResult.t
}.

Definition printSummary (results : list TestResult.t) : Summary :=
  let total := Z.of_nat (List.length results) in
  let t := fold_left tally_result results (mkTally 0 0 0 [] []) in
  mkSummary total t (problematic_routes results).

(** * Definitions used to state the properties *)

(** The class the first loop of [printSummary] puts a result in. *)
Definition is_success (r : TestResult.t) : bool :=
  (200 <=? TestResult.StatusCode r) && (TestResult.StatusCode r <? 400).

Definition is_authFailed (r : TestResult.t) : bool :=
  negb (is_success r) && (TestResult.StatusCode r =? 401).

Definition is_otherError (r : TestResult.t) : bool :=
  negb (is_success r) && negb (TestResult.StatusCode r =? 401)
  && ((400 <=? TestResult.StatusCode r) || is_some (TestResult.Error r)).

Definition count (p : TestResult.t -> bool) (rs : list TestResult.t) : Z :=
  Z.of_nat (List.length (filter p rs)).

(** A result the first loop of [printSummary] counts in none of its three
    tallies. *)
Definition is_uncounted (r : TestResult.t) : bool :=
  (TestResult.StatusCode r <? 200) && negb (is_some (TestResult.Error r)).

(** The entries of the table as a walk visits them when it starts at the
    seventh one and wraps around. *)
Definition rotated_replacements : list (gostring * gostring) :=
  skipn 6 replacements ++ firstn 6 replacements.

(** The text of a placeholder: the name alone, or the name with an operator
    byte and a default. *)
Definition placeholder (name : gostring) (dflt : option (ascii * gostring))
  : gostring :=
  str "${" ++ name
    ++ match dflt with
       | None => []
       | Some (op, d) => ":"%char :: op :: d
       end
    ++ str "}".

(** The names and defaults the pattern of [handleTemplating] accepts. *)
Definition valid_name (name : gostring) : bool :=
  negb (gostring_eqb name []) && forallb regexp.name_byte name.

Definition valid_default (dflt : option (ascii * gostring)) : bool :=
  match dflt with
  | None => true
  | Some (op, d) => regexp.op_byte op && forallb regexp.default_byte d
  end.

(** Whether the scan of [ReplaceAllFunc] over [s], with [skip] bytes of a
    match still to pass over, looks for a match at offset [n]: no match found
    before that offset runs over it. *)
Fixpoint scan_reaches (skip : nat) (s : gostring) (n : nat) {struct n}
  : bool :=
  match n with
  | O => Nat.eqb skip 0
  | S n' =>
      match s with
      | [] => false
      | _ :: rest =>
          match skip with
          | S k => scan_reaches k rest n'
          | O =>
              match regexp.re_match s with
              | Some m => scan_reaches (Nat.pred (List.length m)) rest n'
              | None => scan_reaches 0 rest n'
              end
          end
      end
  end.

(** A text in which every opening "${" is followed, later in the text, by a
    closing brace: a match that starts in it also ends in it. *)
Fixpoint closed (s : gostring) : bool :=
  match s with
  | [] => true
  | c :: r =>
      (if strings.HasPrefix s (str "${")
       then existsb (Ascii.eqb "}") r else true)
      && closed r
  end.

(** The value [handleTemplating] puts in the place of a placeholder, as the
    specification words it. *)
Definition resolved (Getenv : gostring -> gostring) (name : gostring)
  : gostring :=
  match Getenv name with
  | _ :: _ => Getenv name
  | [] =>
      if strings.Contains name (str "SERVICE_ADDRESS")
      then str "http://services.sms.community:10000"
      else str "http://placeholder"
  end.

(** *** The probes [testRoutes] is to make, as the specification derives
    them: per service, per route, per declared path, per method. *)

Record Planned := mkPlanned {
  planned_service : Service.t;
  planned_route : Route.t;
  planned_path : gostring;
  planned_method : gostring
}.

(** The method set of a route: its declared methods, or the five default
    methods when it declares none. *)
Definition derived_methods (route : Route.t) : list gostring :=
  match Route.Methods route with
  | [] => [str "GET"; str "POST"; str "PUT"; str "DELETE"; str "PATCH"]
  | _ :: _ => Route.Methods route
  end.

(** A route is tested unless the toggle for its classification is off. *)
Definition route_tested (flags : Flags) (service : Service.t)
    (route : Route.t) : bool :=
  if hasAuthPlugin route service then testAuth flags else testUnauth flags.

Definition route_plan (service : Service.t) (route : Route.t)
  : list Planned :=
  flat_map
    (fun path => map (mkPlanned service route path) (derived_methods route))
    (Route.Paths route).

Definition service_plan (flags : Flags) (service : Service.t)
  : list Planned :=
  flat_map (route_plan service)
    (filter (route_tested flags service) (Service.Routes service)).

Definition plan (flags : Flags) (config : KongConfig.t) : list Planned :=
  flat_map (service_plan flags)
    (filter (fun service => negb (skipped_service (Service.Name service)))
       (KongConfig.Services config)).

(** The concrete path of a declared path: the path itself, or, when it has
    capture syntax, its expansion under some walk of the table. *)
Definition concrete_path (declared path : gostring) : Prop :=
  if strings.Contains declared (str "(?<")
  then exists order,
         Permutation replacements order /\
         path = expandRegexPath order declared
  else path = declared.

(** A probe that carries out a planned one. *)
Definition realizes (p : Probe) (pl : Planned) : Prop :=
  probe_service p = Service.Name (planned_service pl) /\
  probe_route p = Route.Name (planned_route pl) /\
  concrete_path (planned_path pl) (probe_path p) /\
  probe_method p = planned_method pl /\
  probe_requiresAuth p
  = hasAuthPlugin (planned_route pl) (planned_service pl).

(** The probe a result reports on. *)
Definition probe_of (r : TestResult.t) : Probe :=
  mkProbe (TestResult.Service r) (TestResult.Route r) (TestResult.Path r)
    (TestResult.Method r) (TestResult.RequiresAuth r).

(** What holds of every outcome of [testEndpoint]: with an error it has
    status 0, and in dry-run mode it has status 0, no error and the dry-run
    marker as its message. *)
Definition outcome_ok (flags : Flags) (r : TestResult.t) : Prop :=
  (TestResult.Error r <> None -> TestResult.StatusCode r = 0) /\
  (dryRun flags = true ->
   TestResult.StatusCode r = 0 /\ TestResult.Error r = None /\
   TestResult.Message r = str "DRY RUN").

(** The one way a run panics: outside dry-run mode, [http.NewRequest] fails
    for a method that gets a body. *)
Definition panic_cause (rt : Runtime) (flags : Flags) : Prop :=
  dryRun flags = false /\
  exists method url,
    has_body method = true /\ NewRequest_error rt method url <> None.

(** What a loop of [testRoutes] that is to make the probes [pl] has done
    when it leaves: it made the probes of a prefix [done] of [pl], within
    the budget; it goes on to the next iteration only when all of [pl] is
    done, and returns early only on an exhausted budget with a probe still
    to make. *)
Definition loop_post (rt : Runtime) (flags : Flags) (pl : list Planned)
    (a : Acc) (s : State rt) (out : Exec Ctl * State rt) : Prop :=
  exists done rest new newr,
    pl = done ++ rest /\
    issued (snd out) = issued s ++ new /\
    Forall2 realizes new done /\
    (0 < maxRequests flags -> requestCount a <= maxRequests flags ->
     requestCount a + Z.of_nat (List.length done) <= maxRequests flags) /\
    Forall (outcome_ok flags) newr /\
    match fst out with
    | Ok (Next a') =>
        rest = [] /\
        requestCount a' = requestCount a + Z.of_nat (List.length done) /\
        results a' = results a ++ newr /\ map probe_of newr = new
    | Ok (Return rs) =>
        rest <> [] /\ 0 < maxRequests flags /\
        maxRequests flags <= requestCount a + Z.of_nat (List.length done) /\
        rs = results a ++ newr /\ map probe_of newr = new
    | Panic => done <> [] /\ panic_cause rt flags
    end.

(** *** A runtime, flags and a configuration for the examples *)

(** The world is the number of requests made so far; the server answers 200
    and 401 in turn; a URL with the escape "%zz" is refused by
    [http.NewRequest]; the map walk follows the written order. *)
Definition example_runtime : Runtime := {|
  World := nat;
  NewRequest_error := fun _ url =>
    if strings.Contains url (str "%zz")
    then Some (str "invalid URL escape") else None;
  client_Do := fun _ w =>
    (inl (http.mkResponse (if Nat.even w then 200 else 401) []), S w);
  time_Sleep := fun _ w => w;
  json_Unmarshal := fun _ => None;
  range_replacements := fun w => (replacements, w);
  range_replacements_perm := fun _ => Permutation_refl replacements
|}.

Definition example_flags (dry : bool) (max : Z) : Flags := {|
  baseURL := str "http://localhost:8080";
  authToken := str "token";
  testAuth := true;
  testUnauth := true;
  verbose := false;
  dryRun := dry;
  maxRequests := max
|}.

Definition example_route : Route.t :=
  Route.mk (str "users") [str "/users"; str "/users/(?<user_id>[^/]+)"]
    [] [] [] 0.

Definition example_service : Service.t :=
  Service.mk (str "accounts") (str "http://accounts.internal") []
    [example_route;
     Route.mk (str "login") [str "/login"] [str "POST"] []
       [Plugin.mk (str "auth") []] 0].

Definition example_config : KongConfig.t :=
  KongConfig.mk [example_service].

Definition initial_state (rt : Runtime) (w : World rt) : State rt :=
  mkState w [] [].

(** A runtime whose server answers every request with status 101
    (Switching Protocols) and an empty body. *)
Definition switching_runtime : Runtime := {|
  World := unit;
  NewRequest_error := fun _ _ => None;
  client_Do := fun _ w => (inl (http.mkResponse 101 []), w);
  time_Sleep := fun _ w => w;
  json_Unmarshal := fun _ => None;
  range_replacements := fun w => (replacements, w);
  range_replacements_perm := fun _ => Permutation_refl replacements
|}.

Definition ping_config : KongConfig.t :=
  KongConfig.mk
    [Service.mk (str "gateway") [] []
       [Route.mk (str "ping") [str "/ping"] [str "GET"] [] [] 0]].

(** The environments of the cases of [TestHandleTemplating]. *)
Definition empty_env (_ : gostring) : gostring := [].

Definition api_env (name : gostring) : gostring :=
  if gostring_eqb name (str "API_URL") then str "https://api.example.com"
  else [].

Definition host_env (name : gostring) : gostring :=
  if gostring_eqb name (str "HOST") then str "localhost" else [].

(** *** Reading the counter maps of [printSummary] *)

(** [m[key]] on a map of counters: the count of the key, 0 when the map has
    no entry for it. *)
Fixpoint map_get {K : Type} (eqb : K -> K -> bool) (m : list (K * Z))
    (key : K) : Z :=
  match m with
  | [] => 0
  | (k, n) :: m' => if eqb k key then n else map_get eqb m' key
  end.

(** The sum of the counts of a map of counters. *)
Definition sum_counts {K : Type} (m : list (K * Z)) : Z :=
  fold_right (fun kn acc => snd kn + acc) 0 m.

(** *** The requests and the pauses of a run *)

(** The request [testEndpoint] passes to [client.Do] for a probe: the method
    and the URL of the probe; the sample body and the Content-Type header
    for POST, PUT and PATCH; the Authorization header when the probe
    requires auth and a token is configured. *)
Definition request_of (flags : Flags) (p : Probe) : http.Request :=
  http.mkRequest (probe_method p) (baseURL flags ++ probe_path p)
    (if has_body (probe_method p) then Some sample_body else None)
    ((if probe_requiresAuth p && negb (gostring_eqb (authToken flags) [])
      then [(str "Authorization", str "Bearer " ++ authToken flags)]
      else [])
     ++ (if has_body (probe_method p)
         then [(str "Content-Type", str "application/json")]
         else [])).

(** What a recording world notes down: the requests passed to [client.Do]
    and the pauses of [time.Sleep], in the order they happen. *)
Inductive Event :=
| Requested (req : http.Request)
| Slept (ms : Z).

Definition recording_range (rt : Runtime)
    (wl : World rt * list Event)
  : list (gostring * gostring) * (World rt * list Event) :=
  let (order, w) := range_replacements rt (fst wl) in (order, (w, snd wl)).

Lemma recording_range_perm (rt : Runtime) (wl : World rt * list Event) :
  Permutation replacements (fst (recording_range rt wl)).
Proof.
  unfold recording_range.
  pose proof (range_replacements_perm rt (fst wl)) as H.
  destruct (range_replacements rt (fst wl)); exact H.
Qed.

(** A runtime that behaves as [rt] and keeps, beside the world of [rt], the
    log of its requests and pauses. *)
Definition recording (rt : Runtime) : Runtime := {|
  World := World rt * list Event;
  NewRequest_error := NewRequest_error rt;
  client_Do := fun req wl =>
    let (r, w) := client_Do rt req (fst wl) in
    (r, (w, snd wl ++ [Requested req]));
  time_Sleep := fun ms wl =>
    (time_Sleep rt ms (fst wl), snd wl ++ [Slept ms]);
  json_Unmarshal := json_Unmarshal rt;
  range_replacements := recording_range rt;
  range_replacements_perm := recording_range_perm rt
|}.

(** The log of the world of a state of a recording runtime. *)
Definition event_log {rt : Runtime} (s : State (recording rt)) : list Event :=
  snd (world s).

(** A probe whose call of [testEndpoint] panics. *)
Definition probe_panics (rt : Runtime) (flags : Flags) (p : Probe) : bool :=
  negb (dryRun flags) && has_body (probe_method p)
  && is_some (NewRequest_error rt (probe_method p)
                (baseURL flags ++ probe_path p)).

(** The request of a probe, if one is sent: none in dry-run mode, none when
    the request cannot be built. *)
Definition probe_requests (rt : Runtime) (flags : Flags) (p : Probe)
  : list Event :=
  if dryRun flags then []
  else
    match NewRequest_error rt (probe_method p)
            (baseURL flags ++ probe_path p) with
    | Some _ => []
    | None => [Requested (request_of flags p)]
    end.

(** The events of a probe: its request, if any, and the pause that follows;
    nothing for a probe that panics. *)
Definition probe_events (rt : Runtime) (flags : Flags) (p : Probe)
  : list Event :=
  if probe_panics rt flags p then []
  else probe_requests rt flags p ++ [Slept 100].

(** *** The lines of a run *)



(** *** The outcome of a probe *)

(** The outcome [testEndpoint] records for what [client.Do] gives back: the
    status of a response, with the message of its body from status 400 up;
    the error of a failed exchange, with status 0. *)
Definition outcome_of (rt : Runtime) (p : Probe)
    (answer : http.Response + gostring) : TestResult.t :=
  match answer with
  | inl resp =>
      TestResult.mk (probe_service p) (probe_route p) (probe_path p)
        (probe_method p) (probe_requiresAuth p) (http.StatusCode resp) None
        (if 400 <=? http.StatusCode resp
         then error_message rt (http.ResponseBody resp) []
         else [])
  | inr err =>
      TestResult.mk (probe_service p) (probe_route p) (probe_path p)
        (probe_method p) (probe_requiresAuth p) 0 (Some err) []
  end.

(** The end of a call of [testEndpoint] that returns: the probe is noted,
    the world is [w], the result is printed and returned. *)
Definition reported (rt : Runtime) (flags : Flags) (p : Probe)
    (r : TestResult.t) (w : World rt) (s : State rt)
  : Exec TestResult.t * State rt :=
  (Ok r,
   snd (printResult rt flags r (mkState w (stdout s) (issued s ++ [p])))).

(** ** [readKongConfig] and [main] *)

(** What [readKongConfig] takes from outside: [os.ReadFile] (the bytes of a
    file, or an error), [yaml.Unmarshal] into a [KongConfig] (the decoded
    configuration, or an error) and [os.Getenv]. *)
Record Host := {
  os_ReadFile : gostring -> gostring + gostring;
  yaml_Unmarshal : gostring -> KongConfig.t + gostring;
  os_Getenv : gostring -> gostring
}.

Definition readKongConfig (host : Host) (filename : gostring)
  : KongConfig.t + gostring :=
  match os_ReadFile host filename with
  | inr err => inr err
  | inl data =>
      let data := handleTemplating (os_Getenv host) data in
      match yaml_Unmarshal host data with
      | inr err => inr err
      | inl config => inl config
      end
  end.

(** How [main] ends: through [os.Exit] after printing a message, or behind
    [printSummary], with what that prints. *)
Inductive Ended :=
| Exited (code : Z) (printed : gostring)
| Summarised (summary : Summary).

Definition newline : ascii := "010"%char.

(** [main], for the parsed flags [flags] and the flag [kongFile]. *)
Definition main (host : Host) (rt : Runtime) (flags : Flags)
    (kongFile : gostring) : M rt Ended :=
  match readKongConfig host kongFile with
  | inr err =>
      ret (Exited 1
             (str "Error reading Kong configuration: " ++ err ++ [newline]))
  | inl config =>
      results <- testRoutes rt flags config ;;
      ret (Summarised (printSummary results))
  end.

(** A host for the examples.  Its one file is a configuration that leaves
    the address of its service to the environment, which has it.  The
    decoder gives the example configuration for the text of the file after
    templating. *)
Definition accounts_env (name : gostring) : gostring :=
  if gostring_eqb name (str "ACCOUNTS_URL") then str "http://accounts.internal"
  else [].

Definition example_file (url : gostring) : gostring :=
  flat_map (fun line => line ++ [newline])
    [str "services:";
     str "- name: accounts";
     str "  url: " ++ url;
     str "  routes:";
     str "  - name: users";
     str "    paths:";
     str "    - /users";
     str "    - '/users/(?<user_id>[^/]+)'";
     str "  - name: login";
     str "    paths:";
     str "    - /login";
     str "    methods:";
     str "    - POST";
     str "    plugins:";
     str "    - name: auth"].

Definition example_host : Host := {|
  os_ReadFile := fun filename =>
    if gostring_eqb filename (str "kong.yaml")
    then inl (example_file (str "${ACCOUNTS_URL:?}"))
    else inr (str "open: no such file or directory");
  yaml_Unmarshal := fun data =>
    if gostring_eqb data (example_file (str "http://accounts.internal"))
    then inl example_config
    else inr (str "yaml: unmarshal errors");
  os_Getenv := accounts_env
|}.

(** *** Texts made of plain text and placeholders *)

(** A piece of a configuration text: plain text, or a placeholder with its
    name and, possibly, an operator and a default. *)
Inductive Piece :=
| Plain (text : gostring)
| Hole (name : gostring) (dflt : option (ascii * gostring)).

(** The bytes of a piece as they are written in the file. *)
Definition piece_source (piece : Piece) : gostring :=
  match piece with
  | Plain text => text
  | Hole name dflt => placeholder name dflt
  end.

(** The bytes of a piece after templating. *)
Definition piece_value (Getenv : gostring -> gostring) (piece : Piece)
  : gostring :=
  match piece with
  | Plain text => text
  | Hole name _ => resolved Getenv name
  end.

(** Plain text without a dollar sign; a placeholder the pattern accepts. *)
Definition piece_ok (piece : Piece) : bool :=
  match piece with
  | Plain text => forallb (fun c => negb (Ascii.eqb c "$")) text
  | Hole name dflt => valid_name name && valid_default dflt
  end.

(** *** How a piece of a run ends *)

(** What the probes made by a piece of a run tell about its end: a piece
    that returns has made no probe whose call of [testEndpoint] panics; a
    piece that panics has made one, the last of its probes. *)
Definition ends_at_panic (rt : Runtime) (flags : Flags) {A : Type}
    (s : State rt) (out : Exec A * State rt) : Prop :=
  exists new,
    issued (snd out) = issued s ++ new /\
    match fst out with
    | Ok _ => existsb (probe_panics rt flags) new = false
    | Panic =>
        exists new' p,
          new = new' ++ [p] /\
          existsb (probe_panics rt flags) new' = false /\
          probe_panics rt flags p = true
    end.

(** * Properties *)

(** ** Go strings *)

Lemma gostring_eqb_eq (a b : gostring) : gostring_eqb a b = true <-> a = b.
Proof.
  revert b; induction a as [|c a IH]; intros [|d b]; simpl;
    try (split; [discriminate | discriminate]); try tauto.
  rewrite andb_true_iff, Ascii.eqb_eq, IH.
  split; [intros [-> ->]; reflexivity | intros H; inversion H; auto].
Qed.

Lemma gostring_eqb_refl (a : gostring) : gostring_eqb a a = true.
Proof. apply gostring_eqb_eq; reflexivity. Qed.

Lemma gostring_eqb_neq (a b : gostring) : gostring_eqb a b = false <-> a <> b.
Proof.
  rewrite <- gostring_eqb_eq.
  destruct (gostring_eqb a b); split; congruence.
Qed.

(** ** [hasAuthPlugin] *)

Lemma any_auth_iff (plugins : list Plugin.t) :
  any_auth plugins = true <->
  exists p, In p plugins /\ Plugin.Name p = str "auth".
Proof.
  induction plugins as [|q plugins IH]; simpl.
  - split; [discriminate | intros (p & [] & _)].
  - destruct (gostring_eqb (Plugin.Name q) (str "auth")) eqn:E.
    + split; [intros _ | reflexivity].
      exists q; split; [now left | now apply gostring_eqb_eq].
    + rewrite IH; split.
      * intros (p & Hin & Hp); exists p; auto.
      * intros (p & [-> | Hin] & Hp); [| exists p; auto].
        apply gostring_eqb_neq in E; contradiction.
Qed.

(** C6: [hasAuthPlugin route service] is [true] exactly when a plugin named
    "auth" is in the route's plugins or in the service's plugins; when
    neither list has a plugin of that name it is [false]. *)
Theorem hasAuthPlugin_iff (route : Route.t) (service : Service.t) :
  (hasAuthPlugin route service = true <->
   (exists p, In p (Route.Plugins route) /\ Plugin.Name p = str "auth") \/
   (exists p, In p (Service.Plugins service) /\ Plugin.Name p = str "auth"))
  /\
  ((forall p, In p (Route.Plugins route ++ Service.Plugins service) ->
              Plugin.Name p <> str "auth") ->
   hasAuthPlugin route service = false).
Proof.
  assert (Hiff : hasAuthPlugin route service = true <->
    (exists p, In p (Route.Plugins route) /\ Plugin.Name p = str "auth") \/
    (exists p, In p (Service.Plugins service) /\ Plugin.Name p = str "auth")).
  { rewrite <- !any_auth_iff. unfold hasAuthPlugin.
    destruct (any_auth (Route.Plugins route)),
             (any_auth (Service.Plugins service)); intuition congruence. }
  split; [exact Hiff |].
  intros Hnone.
  destruct (hasAuthPlugin route service) eqn:E; [| reflexivity].
  exfalso.
  destruct (proj1 Hiff eq_refl) as [(p & Hin & Hp) | (p & Hin & Hp)];
    apply (Hnone p); auto; apply in_or_app; auto.
Qed.

(** ** [printSummary] *)

(** The comparisons of a status code the first loop of [printSummary]
    makes, as propositions. *)
Ltac status_cases r :=
  destruct (Z.leb_spec 200 (TestResult.StatusCode r)),
    (Z.ltb_spec (TestResult.StatusCode r) 400),
    (Z.eqb_spec (TestResult.StatusCode r) 401),
    (Z.leb_spec 400 (TestResult.StatusCode r)).

Lemma count_cons p r rs :
  count p (r :: rs) = (if p r then 1 else 0) + count p rs.
Proof.
  unfold count; simpl. destruct (p r); simpl List.length; lia.
Qed.

Lemma count_app p rs1 rs2 : count p (rs1 ++ rs2) = count p rs1 + count p rs2.
Proof.
  unfold count. rewrite filter_app, length_app. lia.
Qed.

Lemma tally_result_step (t : Tally) (r : TestResult.t) :
  successful (tally_result t r)
    = successful t + (if is_success r then 1 else 0) /\
  authFailed (tally_result t r)
    = authFailed t + (if is_authFailed r then 1 else 0) /\
  otherErrors (tally_result t r)
    = otherErrors t + (if is_otherError r then 1 else 0).
Proof.
  unfold tally_result, is_authFailed, is_otherError, is_success.
  destruct ((200 <=? TestResult.StatusCode r)
            && (TestResult.StatusCode r <? 400)); simpl; [lia |].
  destruct (TestResult.StatusCode r =? 401); simpl; [lia |].
  destruct ((400 <=? TestResult.StatusCode r)
            || is_some (TestResult.Error r)); simpl; lia.
Qed.

Lemma tally_fold (rs : list TestResult.t) (t : Tally) :
  let t' := fold_left tally_result rs t in
  successful t' = successful t + count is_success rs /\
  authFailed t' = authFailed t + count is_authFailed rs /\
  otherErrors t' = otherErrors t + count is_otherError rs.
Proof.
  revert t; induction rs as [|r rs IH]; intros t; simpl.
  - unfold count; simpl; lia.
  - specialize (IH (tally_result t r)); simpl in IH.
    destruct IH as (H1 & H2 & H3). rewrite H1, H2, H3, !count_cons.
    destruct (tally_result_step t r) as (-> & -> & ->). lia.
Qed.

Lemma printSummary_counts (rs : list TestResult.t) :
  successful (tally (printSummary rs)) = count is_success rs /\
  authFailed (tally (printSummary rs)) = count is_authFailed rs /\
  otherErrors (tally (printSummary rs)) = count is_otherError rs.
Proof.
  unfold printSummary; simpl.
  pose proof (tally_fold rs (mkTally 0 0 0 [] [])) as H; simpl in H.
  exact H.
Qed.

(** C2: in any sequence of outcomes, an outcome (one that has status 0
    whenever it carries an error, as every outcome of [testEndpoint] does)
    adds one to the successes and to nothing else when its status is in
    [200,400); one to the auth failures only when its status is 401; one to
    the other errors only when its status is another one from 400 up or it
    carries an error; and to none of the three when its status is 0 and it
    carries no error. *)
Theorem printSummary_classifies (before after : list TestResult.t)
    (r : TestResult.t) :
  (TestResult.Error r <> None -> TestResult.StatusCode r = 0) ->
  let t := tally (printSummary (before ++ after)) in
  let t' := tally (printSummary (before ++ r :: after)) in
  let code := TestResult.StatusCode r in
  (200 <= code < 400 ->
   successful t' = successful t + 1 /\ authFailed t' = authFailed t
   /\ otherErrors t' = otherErrors t) /\
  (code = 401 ->
   successful t' = successful t /\ authFailed t' = authFailed t + 1
   /\ otherErrors t' = otherErrors t) /\
  ((400 <= code /\ code <> 401) \/ TestResult.Error r <> None ->
   successful t' = successful t /\ authFailed t' = authFailed t
   /\ otherErrors t' = otherErrors t + 1) /\
  (code = 0 /\ TestResult.Error r = None ->
   successful t' = successful t /\ authFailed t' = authFailed t
   /\ otherErrors t' = otherErrors t).
Proof.
  intros Hwf. cbv zeta.
  destruct (printSummary_counts (before ++ after)) as (-> & -> & ->).
  destruct (printSummary_counts (before ++ r :: after)) as (-> & -> & ->).
  rewrite !count_app, !count_cons.
  assert (He : TestResult.Error r <> None ->
               is_some (TestResult.Error r) = true
               /\ TestResult.StatusCode r = 0).
  { intros H; split; [| auto].
    destruct (TestResult.Error r); [reflexivity | congruence]. }
  assert (Hn : TestResult.Error r = None ->
               is_some (TestResult.Error r) = false).
  { intros ->; reflexivity. }
  split; [| split; [| split]]; intros H.
  - assert (E : is_success r = true /\ is_authFailed r = false
                /\ is_otherError r = false).
    { unfold is_authFailed, is_otherError, is_success.
      destruct (Z.leb_spec 200 (TestResult.StatusCode r)),
        (Z.ltb_spec (TestResult.StatusCode r) 400); try lia; auto. }
    destruct E as (-> & -> & ->); lia.
  - assert (E : is_success r = false /\ is_authFailed r = true
                /\ is_otherError r = false).
    { unfold is_authFailed, is_otherError, is_success. rewrite H.
      auto. }
    destruct E as (-> & -> & ->); lia.
  - assert (E : is_success r = false /\ is_authFailed r = false
                /\ is_otherError r = true).
    { unfold is_authFailed, is_otherError, is_success.
      destruct H as [H | H];
        [| destruct (He H) as [-> ->]; auto].
      status_cases r; try lia; auto. }
    destruct E as (-> & -> & ->); lia.
  - assert (E : is_success r = false /\ is_authFailed r = false
                /\ is_otherError r = false).
    { unfold is_authFailed, is_otherError, is_success.
      destruct H as [H0 H1]; rewrite (Hn H1), H0; auto. }
    destruct E as (-> & -> & ->); lia.
Qed.

Lemma printSummary_classifies_witness :
  let r := TestResult.mk (str "svc") (str "route") (str "/a") (str "GET")
             false 0 (Some (str "connection refused")) [] in
  let t := tally (printSummary []) in
  let t' := tally (printSummary [r]) in
  successful t' = successful t /\ authFailed t' = authFailed t
  /\ otherErrors t' = otherErrors t + 1.
Proof.
  cbv zeta.
  apply (printSummary_classifies [] []
           (TestResult.mk (str "svc") (str "route") (str "/a") (str "GET")
              false 0 (Some (str "connection refused")) [])).
  - reflexivity.
  - right. discriminate.
Defined.

Lemma is_uncounted_iff (r : TestResult.t) :
  is_uncounted r = true <->
  TestResult.StatusCode r < 200 /\ TestResult.Error r = None.
Proof.
  unfold is_uncounted. rewrite andb_true_iff, Z.ltb_lt, negb_true_iff.
  destruct (TestResult.Error r); simpl; intuition congruence.
Qed.

Lemma one_class (r : TestResult.t) :
  (if is_success r then 1 else 0) + (if is_authFailed r then 1 else 0)
  + (if is_otherError r then 1 else 0) + (if is_uncounted r then 1 else 0)
  = 1.
Proof.
  unfold is_uncounted, is_authFailed, is_otherError, is_success.
  status_cases r;
    destruct (Z.ltb_spec (TestResult.StatusCode r) 200),
      (is_some (TestResult.Error r)); simpl; lia.
Qed.

Lemma counts_partition (rs : list TestResult.t) :
  count is_success rs + count is_authFailed rs + count is_otherError rs
  + count is_uncounted rs = Z.of_nat (List.length rs).
Proof.
  induction rs as [|r rs IH].
  - reflexivity.
  - rewrite !count_cons. pose proof (one_class r).
    simpl List.length. lia.
Qed.

Lemma count_nonneg p rs : 0 <= count p rs.
Proof. unfold count; lia. Qed.

Lemma count_zero_iff p rs :
  count p rs = 0 <-> forall r, In r rs -> p r = false.
Proof.
  induction rs as [|r rs IH].
  - split; [intros _ r [] | reflexivity].
  - rewrite count_cons. pose proof (count_nonneg p rs). split.
    + intros H0 x [<- | Hin].
      * destruct (p r); [lia | reflexivity].
      * apply IH; [destruct (p r); lia | assumption].
    + intros Hall. rewrite (Hall r (or_introl eq_refl)).
      apply IH. intros x Hin; apply Hall; now right.
Qed.

(** C3, as amended: the three tallies add up to at most the number of
    outcomes, and to exactly that number if and only if no outcome has a
    status below 200 and no error. *)
Theorem printSummary_tallies_total (results : list TestResult.t) :
  let s := printSummary results in
  successful (tally s) + authFailed (tally s) + otherErrors (tally s)
    <= total s
  /\
  (successful (tally s) + authFailed (tally s) + otherErrors (tally s)
     = total s
   <->
   forall r, In r results ->
     ~ (TestResult.StatusCode r < 200 /\ TestResult.Error r = None)).
Proof.
  cbv zeta.
  destruct (printSummary_counts results) as (-> & -> & ->).
  change (total (printSummary results)) with (Z.of_nat (List.length results)).
  pose proof (counts_partition results) as Hp.
  pose proof (count_nonneg is_uncounted results) as Hu.
  split; [lia |].
  transitivity (count is_uncounted results = 0); [lia |].
  rewrite count_zero_iff.
  split; intros H r Hin.
  - rewrite <- is_uncounted_iff. rewrite (H r Hin). discriminate.
  - specialize (H r Hin). rewrite <- is_uncounted_iff in H.
    destruct (is_uncounted r); congruence.
Qed.

(** C3, as stated, fails: against a server that answers 101, the run of
    the one-route configuration returns one outcome, with status 101 and no
    error; it is counted in no tally, although no outcome has status 0 and
    no error. *)
Lemma printSummary_tallies_below_total :
  let results :=
    [TestResult.mk (str "gateway") (str "ping") (str "/ping") (str "GET")
       false 101 None []] in
  let s := printSummary results in
  fst (testRoutes switching_runtime (example_flags false 0) ping_config
         (initial_state switching_runtime tt)) = Ok results
  /\
  (forall r, In r results ->
     ~ (TestResult.StatusCode r = 0 /\ TestResult.Error r = None))
  /\ successful (tally s) + authFailed (tally s) + otherErrors (tally s)
     < total s.
Proof.
  cbv zeta. split; [reflexivity |]. split.
  - intros r [<- | []] [H _]. discriminate H.
  - reflexivity.
Qed.

(** C8: a result is listed among the problematic routes exactly when it is
    one of the results, its status is 401 and it does not require auth. *)
Theorem problematic_iff (results : list TestResult.t) (r : TestResult.t) :
  In r (problematic (printSummary results)) <->
  In r results /\ TestResult.StatusCode r = 401
  /\ TestResult.RequiresAuth r = false.
Proof.
  unfold printSummary; simpl.
  induction results as [|x results IH]; simpl.
  - tauto.
  - destruct (Z.eqb_spec (TestResult.StatusCode x) 401) as [E | E];
      destruct (TestResult.RequiresAuth x) eqn:A; simpl; rewrite IH;
      intuition (subst; congruence).
Qed.

(** The problematic routes are the results with status 401 that do not
    require auth, in the order of the results. *)
Lemma problematic_filter (results : list TestResult.t) :
  problematic (printSummary results)
  = filter (fun r => (TestResult.StatusCode r =? 401)
                     && negb (TestResult.RequiresAuth r)) results.
Proof.
  unfold printSummary; simpl.
  induction results as [|x results IH]; simpl; [reflexivity |].
  rewrite IH; reflexivity.
Qed.

(** ** [expandRegexPath] *)

Lemma rotated_replacements_perm :
  Permutation replacements rotated_replacements.
Proof.
  unfold rotated_replacements.
  rewrite <- (firstn_skipn 6 replacements) at 1.
  apply Permutation_app_comm.
Qed.

(** C5: [hasAuthPlugin] is a function of the route and the service, but the
    value of [expandRegexPath] on a path depends on the order of the map
    walk: on the path of the test "test_id pattern works", two walks of the
    same table give different results, and only one of them is the result
    the test expects. *)
Theorem expandRegexPath_depends_on_walk :
  let path := str "/tests/(?<test_id>[0-9a-fA-F-]+)" in
  Permutation replacements replacements /\
  Permutation replacements rotated_replacements /\
  expandRegexPath replacements path = str "/tests/test-id-123" /\
  expandRegexPath rotated_replacements path
    = str "/tests/(?<test_id>abc123def456)" /\
  expandRegexPath replacements path
    <> expandRegexPath rotated_replacements path.
Proof.
  cbv zeta.
  split; [apply Permutation_refl |].
  split; [apply rotated_replacements_perm |].
  split; [reflexivity |].
  split; [reflexivity |].
  vm_compute. discriminate.
Qed.


Lemma replace_from_absent (old new s : gostring) :
  strings.Contains s old = false ->
  strings.replace_from old new 0 s = s.
Proof.
  induction s as [|c s IH]; [reflexivity |].
  cbn [strings.Contains strings.replace_from].
  intros H. apply orb_false_iff in H as [Hp Hc].
  rewrite Hp, (IH Hc). reflexivity.
Qed.

Lemma ReplaceAll_absent (s old new : gostring) :
  strings.Contains s old = false -> strings.ReplaceAll s old new = s.
Proof.
  intros H. unfold strings.ReplaceAll.
  destruct old; [reflexivity | now apply replace_from_absent].
Qed.

(** X2: a path in which no pattern of the table occurs is returned
    unchanged, whatever the order of the walk. *)
Theorem expandRegexPath_no_pattern (order : list (gostring * gostring))
    (path : gostring) :
  Permutation replacements order ->
  forallb (fun entry => negb (strings.Contains path (fst entry))) replacements
  = true ->
  expandRegexPath order path = path.
Proof.
  intros Hperm Hnone.
  assert (Hall : forall entry, In entry order ->
                   strings.Contains path (fst entry) = false).
  { intros entry Hin. apply Permutation_sym in Hperm.
    apply (Permutation_in _ Hperm) in Hin.
    rewrite forallb_forall in Hnone.
    apply negb_true_iff. now apply Hnone. }
  clear Hperm Hnone. unfold expandRegexPath.
  induction order as [|entry order IH]; [reflexivity |].
  cbn [fold_left].
  rewrite ReplaceAll_absent by (apply Hall; now left).
  apply IH. intros e He. apply Hall. now right.
Qed.

Lemma expandRegexPath_no_pattern_witness :
  expandRegexPath rotated_replacements (str "/api/v1/static/endpoint")
  = str "/api/v1/static/endpoint".
Proof.
  apply (expandRegexPath_no_pattern rotated_replacements
           (str "/api/v1/static/endpoint")).
  - exact rotated_replacements_perm.
  - reflexivity.
Defined.

(** A path that one entry of the table turns into [final], that the other
    entries leave alone, and whose [final] no entry changes, expands to
    [final] whatever the order of the walk. *)
Lemma expandRegexPath_one_entry (key : gostring * gostring)
    (path final : gostring) (order : list (gostring * gostring)) :
  In key order ->
  strings.ReplaceAll path (fst key) (snd key) = final ->
  (forall entry, In entry order -> entry <> key ->
     strings.ReplaceAll path (fst entry) (snd entry) = path) ->
  (forall entry, In entry order ->
     strings.ReplaceAll final (fst entry) (snd entry) = final) ->
  expandRegexPath order path = final.
Proof.
  intros Hkey Hhit Hmiss Hfix. unfold expandRegexPath.
  assert (Hdone : forall l, (forall entry, In entry l -> In entry order) ->
            fold_left
              (fun result entry =>
                 strings.ReplaceAll result (fst entry) (snd entry))
              l final = final).
  { induction l as [|e l IH]; intros Hl; [reflexivity |].
    cbn [fold_left]. rewrite Hfix by (apply Hl; now left).
    apply IH. intros x Hx. apply Hl. now right. }
  assert (Hgo : forall l, (forall entry, In entry l -> In entry order) ->
            In key l ->
            fold_left
              (fun result entry =>
                 strings.ReplaceAll result (fst entry) (snd entry))
              l path = final).
  { induction l as [|e l IH]; intros Hl Hin; [destruct Hin |].
    cbn [fold_left].
    assert (Hl' : forall entry, In entry l -> In entry order)
      by (intros x Hx; apply Hl; now right).
    destruct (list_eq_dec ascii_dec (fst e) (fst key)) as [E1 | N1];
      [destruct (list_eq_dec ascii_dec (snd e) (snd key)) as [E2 | N2] |].
    - rewrite E1, E2, Hhit. now apply Hdone.
    - rewrite Hmiss; [| apply Hl; now left | intros ->; congruence].
      apply IH; [assumption |]. destruct Hin as [-> | Hin]; congruence.
    - rewrite Hmiss; [| apply Hl; now left | intros ->; congruence].
      apply IH; [assumption |]. destruct Hin as [-> | Hin]; congruence. }
  apply Hgo; auto.
Qed.

(** X3: the two materialization cases of the specification hold under
    every walk of the table. *)
Theorem expandRegexPath_examples (order : list (gostring * gostring)) :
  Permutation replacements order ->
  expandRegexPath order (str "/items/[0-9a-fA-F-]+/details")
  = str "/items/abc123def456/details" /\
  expandRegexPath order (str "/catchall/(.*)") = str "/catchall/path".
Proof.
  intros Hperm.
  assert (Hin : forall entry, In entry order -> In entry replacements).
  { intros entry. apply Permutation_in. now apply Permutation_sym. }
  split.
  - apply (expandRegexPath_one_entry
             (str "[0-9a-fA-F-]+", str "abc123def456")).
    + apply (Permutation_in _ Hperm). unfold replacements. simpl. tauto.
    + reflexivity.
    + intros entry He Hne. apply Hin in He. unfold replacements in He.
      simpl in He.
      repeat (destruct He as [<- | He]; [try reflexivity; congruence |]).
      destruct He.
    + intros entry He. apply Hin in He. unfold replacements in He.
      simpl in He.
      repeat (destruct He as [<- | He]; [reflexivity |]).
      destruct He.
  - apply (expandRegexPath_one_entry (str "(.*)", str "path")).
    + apply (Permutation_in _ Hperm). unfold replacements. simpl. tauto.
    + reflexivity.
    + intros entry He Hne. apply Hin in He. unfold replacements in He.
      simpl in He.
      repeat (destruct He as [<- | He]; [try reflexivity; congruence |]).
      destruct He.
    + intros entry He. apply Hin in He. unfold replacements in He.
      simpl in He.
      repeat (destruct He as [<- | He]; [reflexivity |]).
      destruct He.
Qed.

Lemma expandRegexPath_examples_witness :
  expandRegexPath rotated_replacements (str "/items/[0-9a-fA-F-]+/details")
  = str "/items/abc123def456/details" /\
  expandRegexPath rotated_replacements (str "/catchall/(.*)")
  = str "/catchall/path".
Proof.
  apply (expandRegexPath_examples rotated_replacements).
  exact rotated_replacements_perm.
Defined.

(** ** [handleTemplating] *)

Lemma span_all (p : ascii -> bool) (a rest : gostring) :
  forallb p a = true ->
  match rest with [] => True | c :: _ => p c = false end ->
  regexp.span p (a ++ rest) = (a, rest).
Proof.
  intros Ha Hrest. induction a as [|x a IH]; simpl in *.
  - destruct rest as [|c rest]; simpl; [reflexivity | now rewrite Hrest].
  - apply andb_true_iff in Ha as [-> Ha]. now rewrite (IH Ha).
Qed.

Lemma span_spec (p : ascii -> bool) (s : gostring) :
  let (a, rest) := regexp.span p s in
  s = a ++ rest /\ forallb p a = true /\
  match rest with [] => True | c :: _ => p c = false end.
Proof.
  induction s as [|c s IH]; simpl; [auto |].
  destruct (p c) eqn:E.
  - destruct (regexp.span p s) as [a rest]. destruct IH as (-> & Ha & Hr).
    simpl. rewrite E. auto.
  - simpl. auto.
Qed.

Lemma re_match_placeholder (name : gostring) (dflt : option (ascii * gostring))
    (rest : gostring) :
  valid_name name = true -> valid_default dflt = true ->
  regexp.re_match (placeholder name dflt ++ rest)
  = Some (placeholder name dflt).
Proof.
  unfold valid_name, valid_default, placeholder.
  intros Hn Hd. apply andb_true_iff in Hn as [Hne Hn].
  change (str "${") with ["$"%char; "{"%char].
  change (str "}") with ["}"%char].
  destruct name as [|n0 name]; [discriminate |].
  destruct dflt as [[op d] |].
  - apply andb_true_iff in Hd as [Hop Hd].
    replace ((["$"%char; "{"%char] ++ (n0 :: name)
              ++ (":"%char :: op :: d) ++ ["}"%char]) ++ rest)
      with ("$"%char :: "{"%char ::
            (n0 :: name) ++ ":"%char :: op :: d ++ "}"%char :: rest)
      by (simpl; repeat (rewrite <- app_assoc; simpl); reflexivity).
    unfold regexp.re_match.
    rewrite (span_all regexp.name_byte (n0 :: name)
               (":"%char :: op :: d ++ "}"%char :: rest) Hn eq_refl).
    rewrite Hop.
    rewrite (span_all regexp.default_byte d ("}"%char :: rest) Hd eq_refl).
    reflexivity.
  - replace ((["$"%char; "{"%char] ++ (n0 :: name) ++ [] ++ ["}"%char])
             ++ rest)
      with ("$"%char :: "{"%char :: (n0 :: name) ++ "}"%char :: rest)
      by (simpl; repeat (rewrite <- app_assoc; simpl); reflexivity).
    unfold regexp.re_match.
    rewrite (span_all regexp.name_byte (n0 :: name)
               ("}"%char :: rest) Hn eq_refl).
    reflexivity.
Qed.

(** Every match is a placeholder with a valid name and default, and a prefix
    of the text: with [re_match_placeholder], the matcher finds exactly the
    placeholders of the pattern. *)
Lemma re_match_sound (s m : gostring) :
  regexp.re_match s = Some m ->
  exists name dflt rest,
    valid_name name = true /\ valid_default dflt = true /\
    m = placeholder name dflt /\ s = m ++ rest.
Proof.
  unfold regexp.re_match.
  destruct s as [|c0 s]; [discriminate |].
  destruct (Ascii.eqb_spec c0 "$") as [-> | N];
    [| destruct c0 as [[] [] [] [] [] [] [] []]; try discriminate;
       congruence].
  destruct s as [|c1 r]; [discriminate |].
  destruct (Ascii.eqb_spec c1 "{") as [-> | N];
    [| destruct c1 as [[] [] [] [] [] [] [] []]; try discriminate;
       congruence].
  pose proof (span_spec regexp.name_byte r) as Hs.
  destruct (regexp.span regexp.name_byte r) as [name r1].
  destruct Hs as (-> & Hname & Hstop).
  destruct name as [|n0 name]; [discriminate |].
  destruct r1 as [|c r1]; [discriminate |].
  destruct (Ascii.eqb_spec c "}") as [-> | Nc].
  - intros H; injection H as <-.
    exists (n0 :: name), None, r1.
    unfold valid_name, valid_default, placeholder. rewrite Hname.
    repeat split.
    change (str "${") with ["$"%char; "{"%char].
    change (str "}") with ["}"%char].
    simpl; repeat (rewrite <- app_assoc; simpl); reflexivity.
  - assert (c = ":"%char) as ->.
    { unfold regexp.name_byte in Hstop.
      destruct (Ascii.eqb_spec c ":"); [assumption |].
      destruct (Ascii.eqb_spec c "}"); [contradiction | discriminate]. }
    destruct r1 as [|op r2]; [discriminate |].
    destruct (regexp.op_byte op) eqn:Hop; [| discriminate].
    pose proof (span_spec regexp.default_byte r2) as Hs.
    destruct (regexp.span regexp.default_byte r2) as [d r3].
    destruct Hs as (-> & Hd & Hstop2).
    destruct r3 as [|c3 r3]; [discriminate |].
    destruct (Ascii.eqb_spec c3 "}") as [-> | N3];
      [| destruct c3 as [[] [] [] [] [] [] [] []]; try discriminate;
         congruence].
    intros H; injection H as <-.
    exists (n0 :: name), (Some (op, d)), r3.
    unfold valid_name, valid_default, placeholder. rewrite Hname, Hop, Hd.
    repeat split.
    change (str "${") with ["$"%char; "{"%char].
    change (str "}") with ["}"%char].
    simpl; repeat (rewrite <- app_assoc; simpl); reflexivity.
Qed.

Lemma re_match_length (s m : gostring) :
  regexp.re_match s = Some m ->
  (4 <= List.length m <= List.length s)%nat.
Proof.
  intros H. apply re_match_sound in H.
  destruct H as (name & dflt & rest & Hn & _ & -> & ->).
  rewrite length_app. unfold placeholder. rewrite !length_app.
  destruct name; [discriminate |]. simpl. lia.
Qed.

Lemma Split_hd (name rest : gostring) :
  forallb regexp.name_byte name = true ->
  match rest with [] => True | c :: _ => c = ":"%char end ->
  hd [] (strings.Split (name ++ rest) ":") = name.
Proof.
  intros Hn Hrest. induction name as [|c name IH]; simpl.
  - destruct rest as [|c rest]; [reflexivity |]. subst c. reflexivity.
  - simpl in Hn. apply andb_true_iff in Hn as [Hc Hn].
    unfold regexp.name_byte in Hc. apply andb_true_iff in Hc as [Hc _].
    apply negb_true_iff in Hc. rewrite Hc.
    specialize (IH Hn).
    destruct (strings.Split (name ++ rest) ":") as [|p ps]; simpl in *.
    + now subst name.
    + now subst p.
Qed.

Lemma placeholder_inner (name : gostring) (dflt : option (ascii * gostring)) :
  firstn (List.length (placeholder name dflt) - 3)
    (skipn 2 (placeholder name dflt))
  = name ++ match dflt with
            | None => []
            | Some (op, d) => ":"%char :: op :: d
            end.
Proof.
  unfold placeholder.
  change (str "${") with ["$"%char; "{"%char].
  change (str "}") with ["}"%char].
  set (tail := match dflt with
               | None => []
               | Some (op, d) => ":"%char :: op :: d
               end).
  cbn [app skipn]. rewrite app_assoc.
  replace (List.length ("$"%char :: "{"%char :: (name ++ tail) ++ ["}"%char])
           - 3)%nat
    with (List.length (name ++ tail) + 0)%nat
    by (simpl; rewrite !length_app; simpl; lia).
  rewrite firstn_app_2. simpl. now rewrite app_nil_r.
Qed.

(** The function literal of [handleTemplating] gives a placeholder the value
    the specification describes, whatever its default. *)
Lemma templating_repl_placeholder (Getenv : gostring -> gostring)
    (name : gostring) (dflt : option (ascii * gostring)) :
  valid_name name = true ->
  templating_repl Getenv (placeholder name dflt) = resolved Getenv name.
Proof.
  intros Hn. unfold valid_name in Hn. apply andb_true_iff in Hn as [_ Hn].
  unfold templating_repl. rewrite placeholder_inner.
  rewrite Split_hd; [| assumption | destruct dflt as [[op d] |]; simpl; auto].
  unfold resolved. destruct (Getenv name); reflexivity.
Qed.

Lemma replace_from_skip (repl : gostring -> gostring) (a b : gostring) :
  regexp.replace_from repl (List.length a) (a ++ b)
  = regexp.replace_from repl 0 b.
Proof.
  induction a as [|c a IH]; simpl; [reflexivity | exact IH].
Qed.

(** A placeholder at the point the scan has reached is replaced by its
    value, and the scan goes on behind it. *)
Lemma handleTemplating_head (Getenv : gostring -> gostring) (name : gostring)
    (dflt : option (ascii * gostring)) (rest : gostring) :
  valid_name name = true -> valid_default dflt = true ->
  handleTemplating Getenv (placeholder name dflt ++ rest)
  = resolved Getenv name ++ handleTemplating Getenv rest.
Proof.
  intros Hn Hd. unfold handleTemplating, regexp.ReplaceAllFunc.
  pose proof (re_match_placeholder name dflt rest Hn Hd) as Hm.
  remember (placeholder name dflt) as ph eqn:Eph.
  destruct ph as [|c ph].
  { unfold placeholder in Eph. discriminate. }
  cbn [app regexp.replace_from]. cbn [app] in Hm. rewrite Hm.
  rewrite Eph at 1. rewrite templating_repl_placeholder by assumption.
  cbn [List.length Nat.pred]. now rewrite replace_from_skip.
Qed.

Lemma re_match_not_open (s : gostring) :
  strings.HasPrefix s (str "${") = false -> regexp.re_match s = None.
Proof.
  change (str "${") with ["$"%char; "{"%char].
  destruct s as [|c0 [|c1 s]]; simpl.
  - reflexivity.
  - destruct c0 as [[] [] [] [] [] [] [] []]; reflexivity.
  - destruct (Ascii.eqb_spec c0 "$") as [-> | N0].
    + destruct (Ascii.eqb_spec c1 "{") as [-> | N1]; [discriminate |].
      simpl.
      intros _. destruct c1 as [[] [] [] [] [] [] [] []];
        try reflexivity; congruence.
    + intros _. destruct c0 as [[] [] [] [] [] [] [] []];
        try reflexivity; congruence.
Qed.

Lemma span_app_stop (p : ascii -> bool) (s rest : gostring) :
  existsb (fun c => negb (p c)) s = true ->
  regexp.span p (s ++ rest)
  = (fst (regexp.span p s), snd (regexp.span p s) ++ rest).
Proof.
  induction s as [|c s IH]; simpl; [discriminate |].
  destruct (p c) eqn:E; simpl; [| reflexivity].
  intros H. rewrite (IH H).
  destruct (regexp.span p s); reflexivity.
Qed.

Lemma existsb_brace_stop (p : ascii -> bool) (s : gostring) :
  p "}"%char = false ->
  existsb (Ascii.eqb "}") s = true ->
  existsb (fun c => negb (p c)) s = true.
Proof.
  intros Hp. induction s as [|c s IH]; cbn [existsb]; [auto |].
  destruct (Ascii.eqb_spec "}"%char c) as [<- | N].
  - now rewrite Hp.
  - cbn [orb]. intros H. rewrite (IH H). apply orb_true_r.
Qed.

Lemma forallb_no_brace (p : ascii -> bool) (s : gostring) :
  p "}"%char = false -> forallb p s = true ->
  existsb (Ascii.eqb "}") s = false.
Proof.
  intros Hp. induction s as [|c s IH]; cbn [existsb forallb]; [auto |].
  intros H. apply andb_true_iff in H as [Hc H].
  rewrite (IH H). destruct (Ascii.eqb_spec "}"%char c) as [<- | N];
    [congruence | reflexivity].
Qed.

(** A match that starts at an opening "${" with a closing brace behind it
    is decided by the text up to that brace. *)
Lemma re_match_open_app (r post : gostring) :
  existsb (Ascii.eqb "}") r = true ->
  regexp.re_match ("$"%char :: "{"%char :: r ++ post)
  = regexp.re_match ("$"%char :: "{"%char :: r).
Proof.
  intros Hr. unfold regexp.re_match.
  rewrite (span_app_stop regexp.name_byte r post)
    by (apply existsb_brace_stop; [reflexivity | assumption]).
  pose proof (span_spec regexp.name_byte r) as Hs.
  destruct (regexp.span regexp.name_byte r) as [name r1]. simpl fst; simpl snd.
  destruct Hs as (-> & Hname & Hstop).
  destruct name as [|n0 name]; [reflexivity |].
  rewrite existsb_app in Hr.
  rewrite (forallb_no_brace regexp.name_byte (n0 :: name) eq_refl Hname) in Hr.
  cbn [orb] in Hr.
  destruct r1 as [|c r1]; [discriminate |].
  cbn [existsb] in Hr.
  destruct (Ascii.eqb_spec "}"%char c) as [<- | Nc]; [reflexivity |].
  cbn [orb] in Hr.
  assert (c = ":"%char) as ->.
  { unfold regexp.name_byte in Hstop.
    destruct (Ascii.eqb_spec c ":"); [assumption |].
    destruct (Ascii.eqb_spec c "}"); [congruence | discriminate]. }
  destruct r1 as [|op r2]; [discriminate |].
  cbn [existsb] in Hr. cbn [app].
  destruct (regexp.op_byte op) eqn:Hop; [| reflexivity].
  destruct (Ascii.eqb_spec "}"%char op) as [<- | N]; [discriminate Hop |].
  cbn [orb] in Hr.
  rewrite (span_app_stop regexp.default_byte r2 post)
    by (apply existsb_brace_stop; [reflexivity | assumption]).
  pose proof (span_spec regexp.default_byte r2) as Hs.
  destruct (regexp.span regexp.default_byte r2) as [d r3]. simpl fst; simpl snd.
  destruct Hs as (-> & Hd & Hstop2).
  rewrite existsb_app in Hr.
  rewrite (forallb_no_brace regexp.default_byte d eq_refl Hd) in Hr.
  cbn [orb] in Hr.
  destruct r3 as [|c3 r3]; [discriminate |].
  reflexivity.
Qed.

Lemma re_match_closed_app (pre post : gostring) :
  pre <> [] -> closed pre = true ->
  strings.HasPrefix post (str "{") = false ->
  regexp.re_match (pre ++ post) = regexp.re_match pre.
Proof.
  intros Hne Hc Hpost.
  destruct pre as [|c0 pre]; [congruence |].
  simpl in Hc. apply andb_true_iff in Hc as [Hopen _].
  destruct (strings.HasPrefix (c0 :: pre) (str "${")) eqn:Hp.
  - change (str "${") with ["$"%char; "{"%char] in Hp.
    destruct pre as [|c1 pre]; simpl in Hp.
    + rewrite andb_false_r in Hp. discriminate.
    + apply andb_true_iff in Hp as [H0 H1].
      apply andb_true_iff in H1 as [H1 _].
      apply Ascii.eqb_eq in H0, H1. subst c0 c1.
      simpl in Hopen. cbn [app].
      now apply re_match_open_app.
  - rewrite (re_match_not_open _ Hp). apply re_match_not_open.
    change (str "${") with ["$"%char; "{"%char] in *.
    change (str "{") with ["{"%char] in Hpost.
    destruct pre as [|c1 pre]; simpl in *.
    + destruct (Ascii.eqb c0 "$"); [| reflexivity].
      destruct post as [|c1 post]; [reflexivity |].
      simpl in *. rewrite andb_true_r in Hpost. now rewrite Hpost.
    + exact Hp.
Qed.

Lemma scan_reaches_skip (skip : nat) (s : gostring) (n : nat) :
  scan_reaches skip s n = true -> (skip <= n)%nat.
Proof.
  revert skip s. induction n as [|n IH]; intros skip s; simpl.
  - intros H. apply Nat.eqb_eq in H. lia.
  - destruct s as [|c rest]; [discriminate |].
    destruct skip as [|k]; [lia |].
    intros H. apply IH in H. lia.
Qed.

(** A match attempt in a text and in a longer text: what matches in the
    shorter text matches in the longer one, and a match of the longer text
    that ends inside the shorter one is a match of the shorter one. *)
Lemma re_match_app (s rest m : gostring) :
  regexp.re_match s = Some m -> regexp.re_match (s ++ rest) = Some m.
Proof.
  intros H. apply re_match_sound in H.
  destruct H as (name & dflt & r & Hn & Hd & -> & ->).
  rewrite <- app_assoc. now apply re_match_placeholder.
Qed.

Lemma re_match_within (s rest m : gostring) :
  regexp.re_match (s ++ rest) = Some m ->
  (List.length m <= List.length s)%nat ->
  regexp.re_match s = Some m.
Proof.
  intros H Hlen. apply re_match_sound in H.
  destruct H as (name & dflt & r & Hn & Hd & -> & E).
  assert (Hs : s = placeholder name dflt
                   ++ skipn (List.length (placeholder name dflt)) s).
  { rewrite <- (firstn_skipn (List.length (placeholder name dflt)) s) at 1.
    f_equal.
    apply (f_equal (firstn (List.length (placeholder name dflt)))) in E.
    rewrite firstn_app in E.
    replace (List.length (placeholder name dflt) - List.length s)%nat
      with 0%nat in E by lia.
    cbn [firstn] in E. rewrite app_nil_r in E. rewrite E.
    rewrite firstn_app, firstn_all, Nat.sub_diag. cbn [firstn].
    apply app_nil_r. }
  rewrite Hs. now apply re_match_placeholder.
Qed.

Lemma replace_from_reaches (repl : gostring -> gostring) (post : gostring) :
  forall (pre : gostring) (skip : nat),
    scan_reaches skip (pre ++ post) (List.length pre) = true ->
    regexp.replace_from repl skip (pre ++ post)
    = regexp.replace_from repl skip pre ++ regexp.replace_from repl 0 post.
Proof.
  induction pre as [|c pre IH]; intros skip H.
  - simpl in H. apply Nat.eqb_eq in H. subst skip. reflexivity.
  - cbn [app List.length scan_reaches] in H.
    destruct skip as [|k].
    + cbn [app regexp.replace_from].
      destruct (regexp.re_match (c :: pre ++ post)) as [m|] eqn:E.
      * pose proof (scan_reaches_skip _ _ _ H) as Hlen.
        pose proof (re_match_length _ _ E) as Hm.
        rewrite (re_match_within (c :: pre) post m E)
          by (cbn [List.length]; lia).
        rewrite <- app_assoc. f_equal. now apply IH.
      * destruct (regexp.re_match (c :: pre)) as [m|] eqn:E'.
        { apply (re_match_app _ post) in E'. cbn [app] in E'. congruence. }
        cbn [app]. f_equal. now apply IH.
    + cbn [app regexp.replace_from]. now apply IH.
Qed.

(** After a text whose opening braces are all closed, the scan looks for a
    match at the start of what follows. *)
Lemma closed_scan_reaches (post : gostring) :
  strings.HasPrefix post (str "{") = false ->
  forall (pre : gostring) (skip : nat),
    closed pre = true -> (skip <= List.length pre)%nat ->
    scan_reaches skip (pre ++ post) (List.length pre) = true.
Proof.
  intros Hpost. induction pre as [|c pre IH]; intros skip Hc Hskip.
  - simpl in Hskip. replace skip with 0%nat by lia. reflexivity.
  - pose proof (re_match_closed_app (c :: pre) post) as Hm.
    specialize (Hm ltac:(discriminate) Hc Hpost).
    pose proof Hc as Hc'. simpl in Hc'.
    apply andb_true_iff in Hc' as [_ Hc'].
    cbn [app List.length scan_reaches]. cbn [app] in Hm.
    destruct skip as [|k].
    + rewrite Hm.
      destruct (regexp.re_match (c :: pre)) as [m|] eqn:E.
      * apply re_match_length in E. simpl in E. apply IH; [assumption | lia].
      * apply IH; [assumption | lia].
    + apply IH; [assumption |]. simpl in Hskip. lia.
Qed.

(** The scan comes to every placeholder that follows a text whose opening
    braces are all closed. *)
Lemma placeholder_after_closed_text (before : gostring) (name : gostring)
    (dflt : option (ascii * gostring)) (after : gostring) :
  closed before = true ->
  scan_reaches 0 (before ++ placeholder name dflt ++ after)
    (List.length before) = true.
Proof.
  intros Hc. apply closed_scan_reaches; [reflexivity | assumption | lia].
Qed.

(** A placeholder inside an earlier match is not a match of its own: the
    scan does not come to it, and the earlier match is replaced as a whole. *)
Example handleTemplating_nested_opener :
  scan_reaches 0 (str "${A${B}") 3 = false /\
  handleTemplating empty_env (str "${A${B}") = str "http://placeholder".
Proof. split; reflexivity. Qed.

(** ** [testEndpoint] *)

Section EngineProperties.

Variable rt : Runtime.
Variable flags : Flags.

Lemma printResult_run (result : TestResult.t) (s : State rt) :
  fst (printResult rt flags result s) = Ok tt /\
  issued (snd (printResult rt flags result s)) = issued s /\
  world (snd (printResult rt flags result s)) = world s.
Proof.
  unfold printResult.
  destruct (negb (verbose flags) && (200 <=? TestResult.StatusCode result)
            && (TestResult.StatusCode result <? 400)); simpl; auto.
Qed.

(** A call of [testEndpoint] is one more probe made; a result it gives
    reports on that probe, and has status 0 when it has an error. *)
Lemma testEndpoint_run (service route path method : gostring)
    (requiresAuth : bool) (s : State rt) :
  let out := testEndpoint rt flags service route path method requiresAuth s in
  issued (snd out)
  = issued s ++ [mkProbe service route path method requiresAuth] /\
  (forall r, fst out = Ok r ->
     probe_of r = mkProbe service route path method requiresAuth /\
     outcome_ok flags r) /\
  (fst out = Panic -> panic_cause rt flags).
Proof.
  cbv zeta. unfold testEndpoint, bind, issue. cbn [fst snd].
  set (s1 := mkState (world s) (stdout s)
               (issued s ++ [mkProbe service route path method requiresAuth])).
  assert (Hpr : forall (result : TestResult.t) (s' : State rt),
            issued s' = issued s1 ->
            probe_of result = mkProbe service route path method requiresAuth ->
            outcome_ok flags result ->
            let out :=
              match printResult rt flags result s' with
              | (Ok _, s'') => ret result s''
              | (Panic, s'') => (Panic, s'')
              end in
            issued (snd out) = issued s1 /\
            (forall r, fst out = Ok r ->
               probe_of r = mkProbe service route path method requiresAuth /\
               outcome_ok flags r) /\
            (fst out = Panic -> panic_cause rt flags)).
  { intros result s' Hs' Hp Hok. cbv zeta.
    destruct (printResult_run result s') as (H1 & H2 & _).
    destruct (printResult rt flags result s') as [[[]|] s'']; simpl in *;
      try discriminate.
    split; [congruence |].
    split; [intros r E; injection E as <-; auto | discriminate]. }
  destruct (dryRun flags) eqn:Hdry.
  { apply Hpr; [reflexivity | reflexivity |].
    split; [intros _; reflexivity | intros _; repeat split]. }
  assert (Hwet : forall r : TestResult.t,
            (TestResult.Error r <> None -> TestResult.StatusCode r = 0) ->
            outcome_ok flags r).
  { intros r Hr. split; [exact Hr | congruence]. }
  unfold http_NewRequest, Request_Header_Set, client_Do_ptr, Do, panic, ret.
  destruct (has_body method) eqn:Hbody;
    destruct (NewRequest_error rt method (baseURL flags ++ path)) as [e|]
      eqn:Hnew;
    cbn [fst snd].
  - split; [reflexivity |]. split; [discriminate |]. intros _.
    split; [assumption |].
    exists method, (baseURL flags ++ path). rewrite Hnew.
    split; [assumption | discriminate].
  - destruct (requiresAuth && negb (gostring_eqb (authToken flags) []));
      cbn [fst snd];
      match goal with
      | |- context [client_Do rt ?req ?w] =>
          destruct (client_Do rt req w) as [[resp | e] w']
      end; cbn [fst snd];
      try destruct (400 <=? http.StatusCode resp);
      (apply Hpr; [reflexivity | reflexivity | apply Hwet]);
      simpl; solve [congruence | intros _; reflexivity].
  - apply Hpr; [reflexivity | reflexivity | apply Hwet].
    intros _; reflexivity.
  - destruct (requiresAuth && negb (gostring_eqb (authToken flags) []));
      cbn [fst snd];
      match goal with
      | |- context [client_Do rt ?req ?w] =>
          destruct (client_Do rt req w) as [[resp | e] w']
      end; cbn [fst snd];
      try destruct (400 <=? http.StatusCode resp);
      (apply Hpr; [reflexivity | reflexivity | apply Hwet]);
      simpl; solve [congruence | intros _; reflexivity].
Qed.

(** ** [testRoutes] *)

Lemma loop_post_issued (pl : list Planned) (a : Acc) (s s0 : State rt)
    (out : Exec Ctl * State rt) :
  issued s0 = issued s ->
  loop_post rt flags pl a s0 out -> loop_post rt flags pl a s out.
Proof.
  intros E (done & rest & new & newr & H). rewrite E in H.
  exists done, rest, new, newr. exact H.
Qed.

(** One loop body after another: the second runs when the first goes on to
    the next iteration. *)
Lemma loop_post_seq (pl1 pl2 : list Planned) (a : Acc) (s : State rt)
    (m : M rt Ctl) (k : Acc -> M rt Ctl) :
  loop_post rt flags pl1 a s (m s) ->
  (forall a1 s1, loop_post rt flags pl2 a1 s1 (k a1 s1)) ->
  loop_post rt flags (pl1 ++ pl2) a s
    ((c <- m ;;
      match c with
      | Next a1 => k a1
      | Return rs => ret (Return rs)
      end) s).
Proof.
  intros (done & rest & new & newr & Hpl & Hiss & Hreal & Hbud & Hok & Hout) Hk.
  unfold bind. destruct (m s) as [[[a1 | rs] |] s1]; cbn [fst snd] in *.
  - destruct Hout as (-> & Hrc & Hres & Hnew).
    rewrite app_nil_r in Hpl. subst pl1.
    destruct (Hk a1 s1)
      as (done2 & rest2 & new2 & newr2 & Hpl2 & Hiss2 & Hreal2 & Hbud2
          & Hok2 & Hout2).
    exists (done ++ done2), rest2, (new ++ new2), (newr ++ newr2).
    rewrite Hpl2, Hiss2, Hiss, <- !app_assoc, length_app, Nat2Z.inj_add.
    repeat split; auto.
    + now apply Forall2_app.
    + intros Hmax Ha. specialize (Hbud Hmax Ha). lia.
    + apply Forall_app; auto.
    + destruct (fst (k a1 s1)) as [[a2 | rs] |].
      * destruct Hout2 as (-> & Hrc2 & Hres2 & Hnew2).
        rewrite Hrc2, Hrc, Hres2, Hres, map_app, Hnew, Hnew2, <- app_assoc.
        repeat split; auto; lia.
      * destruct Hout2 as (Hrest & Hmax & Hle & -> & Hnew2).
        rewrite Hres, map_app, Hnew, Hnew2, <- app_assoc.
        repeat split; auto; lia.
      * destruct Hout2 as [Hd2 Hcause]. split; [| assumption].
        destruct done2; [congruence |]. destruct done; discriminate.
  - destruct Hout as (Hrest & Hmax & Hle & -> & Hnew).
    exists done, (rest ++ pl2), new, newr.
    rewrite Hpl, <- app_assoc. repeat split; auto.
    destruct rest; [congruence | discriminate].
  - destruct Hout as [Hd Hcause]. exists done, (rest ++ pl2), new, newr.
    rewrite Hpl, <- app_assoc.
    split; [reflexivity |]. split; [assumption |]. split; [assumption |].
    split; [assumption |]. split; [assumption |]. split; assumption.
Qed.

(** A loop with nothing to do. *)
Lemma loop_post_nil (a : Acc) (s : State rt) :
  loop_post rt flags [] a s (ret (Next a) s).
Proof.
  exists [], [], [], []. simpl. rewrite app_nil_r.
  repeat split; auto; try lia. now rewrite app_nil_r.
Qed.

Lemma testRoutes_methods_post (service : Service.t) (route : Route.t)
    (declared path : gostring) (methods : list gostring) :
  concrete_path declared path ->
  forall (a : Acc) (s : State rt),
    loop_post rt flags (map (mkPlanned service route declared) methods) a s
      (testRoutes_methods rt flags service route path
         (hasAuthPlugin route service) methods a s).
Proof.
  intros Hpath. induction methods as [|method methods IH]; intros a s.
  - apply loop_post_nil.
  - cbn [map testRoutes_methods].
    destruct ((0 <? maxRequests flags)
              && (maxRequests flags <=? requestCount a)) eqn:Hb.
    + apply andb_true_iff in Hb as [H0 Hle].
      apply Z.ltb_lt in H0. apply Z.leb_le in Hle.
      exists [], (mkPlanned service route declared method
                  :: map (mkPlanned service route declared) methods), [], [].
      simpl. rewrite !app_nil_r.
      repeat split; auto; try lia; discriminate.
    + assert (Hroom : 0 < maxRequests flags ->
                      requestCount a + 1 <= maxRequests flags).
      { intros H0. apply andb_false_iff in Hb as [Hb | Hb].
        - apply Z.ltb_ge in Hb. lia.
        - apply Z.leb_gt in Hb. lia. }
      unfold bind at 1.
      pose proof (testEndpoint_run (Service.Name service)
                    (Route.Name route) path method
                    (hasAuthPlugin route service) s) as Hrun.
      cbv zeta in Hrun. destruct Hrun as (Hiss & Hres & Hpanic).
      set (probe := mkProbe (Service.Name service) (Route.Name route) path
                      method (hasAuthPlugin route service)) in *.
      assert (Hreal : realizes probe (mkPlanned service route declared method)).
      { unfold realizes; simpl; auto. }
      destruct (testEndpoint rt flags (Service.Name service)
                  (Route.Name route) path method
                  (hasAuthPlugin route service) s) as [[r |] s1];
        cbn [fst snd] in *.
      * destruct (Hres r eq_refl) as (Hp & Hok).
        unfold bind, Sleep. cbn [fst snd].
        match goal with
        | |- loop_post _ _ _ _ _ (testRoutes_methods _ _ _ _ _ _ _ ?x ?y) =>
            set (a1 := x); set (s2 := y)
        end.
        destruct (IH a1 s2)
          as (done & rest & new & newr & Hpl & Hiss2 & Hreal2 & Hbud
              & Hok2 & Hout).
        exists (mkPlanned service route declared method :: done), rest,
               (probe :: new), (r :: newr).
        assert (Hlen : Z.of_nat
                         (List.length
                            (mkPlanned service route declared method :: done))
                       = 1 + Z.of_nat (List.length done)).
        { cbn [List.length]. lia. }
        rewrite Hlen.
        split; [simpl; now rewrite Hpl |].
        split.
        { rewrite Hiss2. unfold s2. cbn [issued]. rewrite Hiss, <- app_assoc.
          reflexivity. }
        split; [constructor; auto |].
        split.
        { intros H0 Ha. specialize (Hroom H0).
          unfold a1 in Hbud. cbn [requestCount] in Hbud.
          specialize (Hbud H0 Hroom). lia. }
        split; [constructor; auto |].
        destruct (fst (testRoutes_methods rt flags service route path
                         (hasAuthPlugin route service) methods a1 s2))
          as [[a2 | rs] |]; unfold a1 in Hout;
          cbn [requestCount results] in Hout.
        -- destruct Hout as (H1 & H2 & H3 & H4).
           rewrite H2, H3, <- app_assoc. cbn [map app]. rewrite Hp, H4.
           repeat split; auto. lia.
        -- destruct Hout as (H1 & H2 & H3 & H4 & H5).
           rewrite H4, <- app_assoc. cbn [map app]. rewrite Hp, H5.
           repeat split; auto. lia.
        -- destruct Hout as [_ Hcause]. split; [discriminate | assumption].
      * exists [mkPlanned service route declared method],
               (map (mkPlanned service route declared) methods), [probe], [].
        cbn [fst snd]. rewrite Hiss. cbn [List.length app].
        split; [reflexivity |]. split; [reflexivity |].
        split; [constructor; auto |].
        split; [intros; specialize (Hroom ltac:(assumption)); lia |].
        split; [constructor |].
        split; [discriminate | apply Hpanic; reflexivity].
Qed.

Lemma testRoutes_paths_post (service : Service.t) (route : Route.t)
    (methods paths : list gostring) (a : Acc) (s : State rt) :
  loop_post rt flags
    (flat_map (fun path => map (mkPlanned service route path) methods) paths)
    a s
    (testRoutes_paths rt flags service route (hasAuthPlugin route service)
       methods paths a s).
Proof.
  revert a s. induction paths as [|declared paths IH]; intros a s.
  - apply loop_post_nil.
  - cbn [flat_map testRoutes_paths]. unfold bind at 1.
    assert (Hstep : exists path s0,
              (if strings.Contains declared (str "(?<")
               then order <- range_order ;; ret (expandRegexPath order declared)
               else ret declared) s = (Ok path, s0)
              /\ issued s0 = issued s /\ concrete_path declared path).
    { unfold concrete_path.
      destruct (strings.Contains declared (str "(?<")).
      - unfold bind, range_order, ret.
        pose proof (range_replacements_perm rt (world s)) as Hperm.
        destruct (range_replacements rt (world s)) as [order w].
        eexists _, _. split; [reflexivity |]. split; [reflexivity |].
        exists order; auto.
      - unfold ret. eexists _, _. repeat split. }
    destruct Hstep as (path & s0 & -> & Hiss & Hpath).
    apply (loop_post_issued _ _ s s0 _ Hiss).
    apply (loop_post_seq _ _ a s0
             (testRoutes_methods rt flags service route path
                (hasAuthPlugin route service) methods a)
             (testRoutes_paths rt flags service route
                (hasAuthPlugin route service) methods paths)).
    + now apply testRoutes_methods_post.
    + intros a1 s1. apply IH.
Qed.

Lemma testRoutes_routes_post (service : Service.t) (routes : list Route.t)
    (a : Acc) (s : State rt) :
  loop_post rt flags
    (flat_map (route_plan service)
       (filter (route_tested flags service) routes))
    a s (testRoutes_routes rt flags service routes a s).
Proof.
  revert a s. induction routes as [|route routes IH]; intros a s.
  - apply loop_post_nil.
  - cbn [filter testRoutes_routes]. unfold route_tested at 1.
    destruct (hasAuthPlugin route service) eqn:Hauth;
      [destruct (testAuth flags) | destruct (testUnauth flags)];
      cbn [andb negb flat_map]; try apply IH.
    all: assert (Hm : (if (List.length (Route.Methods route) =? 0)%nat
                       then default_methods else Route.Methods route)
                      = derived_methods route)
           by (unfold derived_methods; destruct (Route.Methods route);
               reflexivity).
    all: rewrite Hm; unfold route_plan at 1; rewrite <- Hauth.
    all: apply (loop_post_seq _ _ a s
                  (testRoutes_paths rt flags service route
                     (hasAuthPlugin route service) (derived_methods route)
                     (Route.Paths route) a)
                  (testRoutes_routes rt flags service routes));
         [apply testRoutes_paths_post | intros a1 s1; apply IH].
Qed.

Lemma testRoutes_services_post (services : list Service.t) (a : Acc)
    (s : State rt) :
  loop_post rt flags
    (flat_map (service_plan flags)
       (filter (fun service => negb (skipped_service (Service.Name service)))
          services))
    a s (testRoutes_services rt flags services a s).
Proof.
  revert a s. induction services as [|service services IH]; intros a s.
  - apply loop_post_nil.
  - cbn [filter testRoutes_services].
    destruct (skipped_service (Service.Name service)); cbn [negb flat_map].
    + unfold bind at 1.
      destruct (verbose flags); unfold Println, ret;
        (eapply loop_post_issued; [| apply IH]); reflexivity.
    + unfold service_plan at 1.
      apply (loop_post_seq _ _ a s
               (testRoutes_routes rt flags service (Service.Routes service) a)
               (testRoutes_services rt flags services));
        [apply testRoutes_routes_post | intros a1 s1; apply IH].
Qed.

(** [testRoutes] makes the probes of a prefix of the plan, in the order of
    the plan: all of it, or, with a positive budget smaller than the plan,
    as many as the budget. *)
Lemma testRoutes_refines_plan (config : KongConfig.t) (s : State rt) :
  let out := testRoutes rt flags config s in
  exists done rest new,
    plan flags config = done ++ rest /\
    issued (snd out) = issued s ++ new /\
    Forall2 realizes new done /\
    (0 < maxRequests flags ->
     Z.of_nat (List.length done) <= maxRequests flags) /\
    (forall rs, fst out = Ok rs ->
       map probe_of rs = new /\ Forall (outcome_ok flags) rs /\
       (rest = [] \/
        (0 < maxRequests flags /\
         Z.of_nat (List.length done) = maxRequests flags))) /\
    (fst out = Panic -> panic_cause rt flags).
Proof.
  cbv zeta. unfold testRoutes, bind.
  destruct (testRoutes_services_post (KongConfig.Services config)
              (mkAcc [] 0) s)
    as (done & rest & new & newr & Hpl & Hiss & Hreal & Hbud & Hok & Hout).
  fold (plan flags config) in Hpl. cbn [requestCount results] in *.
  exists done, rest, new.
  split; [assumption |].
  destruct (testRoutes_services rt flags (KongConfig.Services config)
              (mkAcc [] 0) s) as [[[a1 | rs1] |] s1];
    cbn [fst snd ret] in *.
  - destruct Hout as (-> & _ & Hres & Hnew).
    split; [assumption |]. split; [assumption |].
    split; [intros; lia |]. split; [| discriminate].
    intros rs E; injection E as <-. rewrite Hres. auto.
  - destruct Hout as (Hrest & Hmax & Hle & -> & Hnew).
    split; [assumption |]. split; [assumption |].
    split; [intros; lia |]. split; [| discriminate].
    intros rs E; injection E as <-.
    split; [assumption |]. split; [assumption |].
    right. split; [assumption |]. specialize (Hbud Hmax). lia.
  - destruct Hout as [_ Hcause].
    split; [assumption |]. split; [assumption |].
    split; [intros; lia |]. split; [discriminate | auto].
Qed.

End EngineProperties.

(** C1: with a positive [maxRequests], a run of [testRoutes] makes at most
    that many probes, whatever the configuration; when it returns, it
    returns one outcome per probe made, as many as the budget or, if the
    plan is shorter, as the plan; and it returns unless request
    construction fails for a method with a body. *)
Theorem testRoutes_budget (rt : Runtime) (flags : Flags)
    (config : KongConfig.t) (s : State rt) :
  0 < maxRequests flags ->
  let out := testRoutes rt flags config s in
  exists new,
    issued (snd out) = issued s ++ new /\
    Z.of_nat (List.length new) <= maxRequests flags /\
    (forall rs, fst out = Ok rs ->
       map probe_of rs = new /\
       Z.of_nat (List.length rs)
       = Z.min (maxRequests flags)
           (Z.of_nat (List.length (plan flags config)))) /\
    (fst out = Panic -> panic_cause rt flags).
Proof.
  intros Hmax. cbv zeta.
  destruct (testRoutes_refines_plan rt flags config s)
    as (done & rest & new & Hpl & Hiss & Hreal & Hbud & Hret & Hpanic).
  pose proof (Forall2_length Hreal) as Hlen.
  exists new. split; [assumption |].
  split; [rewrite Hlen; auto |].
  split; [| assumption].
  intros rs E. destruct (Hret rs E) as (Hnew & _ & Hstop).
  split; [assumption |].
  rewrite <- (length_map probe_of rs), Hnew, Hlen, Hpl, length_app.
  specialize (Hbud Hmax).
  destruct Hstop as [-> | [_ Hfull]]; simpl; lia.
Qed.

Lemma testRoutes_budget_witness :
  let flags := example_flags false 3 in
  let out :=
    testRoutes example_runtime flags example_config
      (initial_state example_runtime 0%nat) in
  exists new,
    issued (snd out) = [] ++ new /\
    Z.of_nat (List.length new) <= 3 /\
    (forall rs, fst out = Ok rs ->
       map probe_of rs = new /\
       Z.of_nat (List.length rs)
       = Z.min 3 (Z.of_nat (List.length (plan flags example_config)))) /\
    (fst out = Panic -> panic_cause example_runtime flags).
Proof.
  cbv zeta.
  apply (testRoutes_budget example_runtime (example_flags false 3)
           example_config (initial_state example_runtime 0%nat)).
  reflexivity.
Defined.

(** C10: outside dry-run mode, when [http.NewRequest] fails for the URL of a
    probe, [testEndpoint] panics if the method is POST, PUT or PATCH (it
    sets the Content-Type header through the nil request before it looks at
    the error): nothing is printed and no outcome is returned; for every
    other method it returns the outcome with the error recorded and prints
    it. *)
Theorem testEndpoint_construction_failure (rt : Runtime) (flags : Flags)
    (service route path method : gostring) (requiresAuth : bool)
    (err : gostring) (s : State rt) :
  dryRun flags = false ->
  NewRequest_error rt method (baseURL flags ++ path) = Some err ->
  let out := testEndpoint rt flags service route path method requiresAuth s in
  (In method [str "POST"; str "PUT"; str "PATCH"] ->
   fst out = Panic /\ stdout (snd out) = stdout s
   /\ world (snd out) = world s) /\
  (~ In method [str "POST"; str "PUT"; str "PATCH"] ->
   fst out
   = Ok (TestResult.mk service route path method requiresAuth 0 (Some err) [])
   /\ exists line, stdout (snd out) = stdout s ++ [line]).
Proof.
  intros Hdry Hnew. cbv zeta.
  assert (Hbody : has_body method = true <->
                  In method [str "POST"; str "PUT"; str "PATCH"]).
  { unfold has_body. rewrite !orb_true_iff, !gostring_eqb_eq. simpl.
    intuition congruence. }
  unfold testEndpoint, bind, issue. cbn [fst snd]. rewrite Hdry.
  unfold http_NewRequest. rewrite Hnew.
  destruct (has_body method) eqn:Hb.
  - split; [intros _ | intros Hn; exfalso; apply Hn, Hbody; reflexivity].
    unfold Request_Header_Set, panic. cbn. auto.
  - split; [intros Hin; apply Hbody in Hin; discriminate | intros _].
    unfold ret at 1. cbn [fst snd with_Error].
    unfold printResult, Println, ret.
    destruct (verbose flags); cbn; (split; [reflexivity | eauto]).
Qed.

Lemma testEndpoint_construction_failure_witness :
  let flags := example_flags false 0 in
  let out :=
    testEndpoint example_runtime flags (str "accounts") (str "users")
      (str "/users/%zz") (str "POST") false
      (initial_state example_runtime 0%nat) in
  fst out = Panic /\ stdout (snd out) = [] /\ world (snd out) = 0%nat.
Proof.
  cbv zeta.
  apply (testEndpoint_construction_failure example_runtime
           (example_flags false 0) (str "accounts") (str "users")
           (str "/users/%zz") (str "POST") false (str "invalid URL escape")
           (initial_state example_runtime 0%nat)).
  - reflexivity.
  - reflexivity.
  - simpl. auto.
Defined.

(** ** Further properties and the cases of the unit tests *)

(** Every outcome a run returns has status 0 when it has an error: the
    outcomes of [testRoutes] are outcomes in the sense of the classification
    of [printSummary]. *)
Lemma testRoutes_outcomes_ok (rt : Runtime) (flags : Flags)
    (config : KongConfig.t) (s : State rt) (rs : list TestResult.t) :
  fst (testRoutes rt flags config s) = Ok rs ->
  Forall (outcome_ok flags) rs.
Proof.
  intros E.
  destruct (testRoutes_refines_plan rt flags config s)
    as (done & rest & new & _ & _ & _ & _ & Hret & _).
  now destruct (Hret rs E) as (_ & Hok & _).
Qed.

(** X1: a dry run does not panic: it returns one outcome for each probe of
    the plan, in order, up to the budget, each with status 0, no error and the
    dry-run marker. *)
Theorem testRoutes_dry_run (rt : Runtime) (flags : Flags)
    (config : KongConfig.t) (s : State rt) :
  dryRun flags = true ->
  exists rs done rest,
    fst (testRoutes rt flags config s) = Ok rs /\
    plan flags config = done ++ rest /\
    Forall2 realizes (map probe_of rs) done /\
    (rest = [] \/
     (0 < maxRequests flags /\
      Z.of_nat (List.length done) = maxRequests flags)) /\
    Forall (fun r => TestResult.StatusCode r = 0 /\
                     TestResult.Error r = None /\
                     TestResult.Message r = str "DRY RUN") rs.
Proof.
  intros Hdry.
  destruct (testRoutes_refines_plan rt flags config s)
    as (done & rest & new & Hpl & _ & Hreal & _ & Hret & Hpanic).
  destruct (fst (testRoutes rt flags config s)) as [rs |].
  - destruct (Hret rs eq_refl) as (Hnew & Hok & Hstop).
    exists rs, done, rest. rewrite Hnew.
    repeat (split; [assumption || reflexivity |]).
    eapply Forall_impl; [| exact Hok].
    intros r [_ H]. exact (H Hdry).
  - destruct (Hpanic eq_refl) as [Hno _]. congruence.
Qed.

Lemma testRoutes_dry_run_witness :
  exists rs done rest,
    fst (testRoutes example_runtime (example_flags true 0) example_config
           (initial_state example_runtime 0%nat)) = Ok rs /\
    plan (example_flags true 0) example_config = done ++ rest /\
    Forall2 realizes (map probe_of rs) done /\
    (rest = [] \/ (0 < 0 /\ Z.of_nat (List.length done) = 0)) /\
    Forall (fun r => TestResult.StatusCode r = 0 /\
                     TestResult.Error r = None /\
                     TestResult.Message r = str "DRY RUN") rs.
Proof.
  apply (testRoutes_dry_run example_runtime (example_flags true 0)
           example_config (initial_state example_runtime 0%nat)).
  reflexivity.
Defined.

(** The planned probes are probes of declared paths of routes of services
    of the configuration. *)
Lemma plan_In (flags : Flags) (config : KongConfig.t) (pl : Planned) :
  In pl (plan flags config) ->
  In (planned_service pl) (KongConfig.Services config) /\
  In (planned_route pl) (Service.Routes (planned_service pl)) /\
  In (planned_path pl) (Route.Paths (planned_route pl)) /\
  In (planned_method pl) (derived_methods (planned_route pl)).
Proof.
  unfold plan, service_plan, route_plan. intros H.
  apply in_flat_map in H as (service & Hs & H).
  apply filter_In in Hs as [Hs _].
  apply in_flat_map in H as (route & Hr & H).
  apply filter_In in Hr as [Hr _].
  apply in_flat_map in H as (path & Hp & H).
  apply in_map_iff in H as (method & <- & Hm). simpl. auto.
Qed.

Example handleTemplating_simple :
  handleTemplating api_env (str "url: ${API_URL}")
  = str "url: https://api.example.com".
Proof. reflexivity. Qed.

Example handleTemplating_default_ignored :
  handleTemplating empty_env (str "url: ${API_URL:=http://localhost:8080}")
  = str "url: http://placeholder".
Proof. reflexivity. Qed.

Example handleTemplating_service_address :
  handleTemplating empty_env (str "url: ${MY_SERVICE_ADDRESS}")
  = str "url: http://services.sms.community:10000".
Proof. reflexivity. Qed.

Example handleTemplating_multiple :
  handleTemplating host_env (str "host: ${HOST} port: ${PORT:=8080}")
  = str "host: localhost port: http://placeholder".
Proof. reflexivity. Qed.

Example handleTemplating_static :
  handleTemplating empty_env (str "url: http://static.example.com")
  = str "url: http://static.example.com".
Proof. reflexivity. Qed.

(** A placeholder with another operator is no match of the pattern and
    stays as it is. *)
Example handleTemplating_other_operator :
  handleTemplating empty_env (str "url: ${API_URL:-fallback}")
  = str "url: ${API_URL:-fallback}".
Proof. reflexivity. Qed.

Example expandRegexPath_hex :
  expandRegexPath replacements (str "/items/[0-9a-fA-F-]+/details")
  = str "/items/abc123def456/details".
Proof. reflexivity. Qed.

Example expandRegexPath_wildcard :
  expandRegexPath replacements (str "/catchall/(.*)") = str "/catchall/path".
Proof. reflexivity. Qed.

Example expandRegexPath_static :
  expandRegexPath replacements (str "/api/v1/static/endpoint")
  = str "/api/v1/static/endpoint".
Proof. reflexivity. Qed.

Example hasAuthPlugin_other_plugins :
  hasAuthPlugin
    (Route.mk (str "test-route") [] [] []
       [Plugin.mk (str "rate-limiting") []; Plugin.mk (str "cors") []] 0)
    (Service.mk [] [] [] [])
  = false.
Proof. reflexivity. Qed.

(** A run under a budget of three stops in the middle of the first path of
    the first route. *)
Example testRoutes_budget_mid_route :
  map TestResult.Method
    (match fst (testRoutes example_runtime (example_flags true 3)
                  example_config (initial_state example_runtime 0%nat)) with
     | Ok rs => rs
     | Panic => []
     end)
  = [str "GET"; str "POST"; str "PUT"].
Proof. reflexivity. Qed.

(** * More of the program *)

(** ** [truncate] *)

(** X4: for a limit of at least 3 (the program uses 40 and 50), the result
    of [truncate] has the length of the string or the limit, whichever is
    smaller; a string within the limit comes back unchanged, and a longer
    one keeps its first [length - 3] bytes and ends in three dots. *)
Theorem truncate_bound (s : gostring) (length : nat) :
  (3 <= length)%nat ->
  List.length (truncate s length) = Nat.min (List.length s) length /\
  ((List.length s <= length)%nat -> truncate s length = s) /\
  ((length < List.length s)%nat ->
   truncate s length = firstn (length - 3) s ++ str "...").
Proof.
  intros H3. unfold truncate.
  destruct (Nat.leb_spec (List.length s) length) as [Hle | Hgt].
  - split; [lia |]. split; [reflexivity | lia].
  - split; [| split; [lia | reflexivity]].
    rewrite length_app, firstn_length_le by lia.
    change (List.length (str "...")) with 3%nat. lia.
Qed.

Lemma truncate_bound_witness :
  List.length (truncate (str "/a/rather/long/path") 10)
  = Nat.min (List.length (str "/a/rather/long/path")) 10 /\
  ((List.length (str "/a/rather/long/path") <= 10)%nat ->
   truncate (str "/a/rather/long/path") 10 = str "/a/rather/long/path") /\
  ((10 < List.length (str "/a/rather/long/path"))%nat ->
   truncate (str "/a/rather/long/path") 10
   = firstn (10 - 3) (str "/a/rather/long/path") ++ str "...").
Proof.
  apply (truncate_bound (str "/a/rather/long/path") 10). lia.
Defined.

(** ** The breakdowns of [printSummary] *)

Section Counters.

Variable K : Type.
Variable eqb : K -> K -> bool.
Hypothesis eqb_eq : forall a b, eqb a b = true <-> a = b.

Lemma eqb_same (a : K) : eqb a a = true.
Proof. now apply eqb_eq. Qed.

Lemma incr_get (m : list (K * Z)) (key k : K) :
  map_get eqb (incr eqb m key) k
  = map_get eqb m k + (if eqb key k then 1 else 0).
Proof.
  induction m as [|[k0 n] m IH]; cbn [incr map_get].
  - destruct (eqb key k); lia.
  - destruct (eqb k0 key) eqn:E0; cbn [map_get].
    + apply eqb_eq in E0. subst k0.
      destruct (eqb key k); lia.
    + destruct (eqb k0 k) eqn:E1; [| exact IH].
      apply eqb_eq in E1. subst k0.
      destruct (eqb key k) eqn:E2; [| lia].
      apply eqb_eq in E2. subst key. rewrite eqb_same in E0. discriminate.
Qed.

Lemma incr_keys (m : list (K * Z)) (key k : K) :
  In k (map fst (incr eqb m key)) <-> k = key \/ In k (map fst m).
Proof.
  induction m as [|[k0 n] m IH]; cbn [incr map fst In].
  - intuition.
  - destruct (eqb k0 key) eqn:E0; cbn [map fst In].
    + apply eqb_eq in E0. subst k0. intuition.
    + rewrite IH. intuition.
Qed.

Lemma incr_NoDup (m : list (K * Z)) (key : K) :
  NoDup (map fst m) -> NoDup (map fst (incr eqb m key)).
Proof.
  induction m as [|[k0 n] m IH]; cbn [incr map fst]; intros Hnd.
  - constructor; [intros [] | constructor].
  - inversion Hnd as [|? ? Hnotin Hnd']; subst.
    destruct (eqb k0 key) eqn:E0; cbn [map fst].
    + constructor; assumption.
    + constructor; [| now apply IH].
      rewrite incr_keys. intros [-> | Hin]; [| contradiction].
      rewrite eqb_same in E0. discriminate.
Qed.

Lemma incr_sum (m : list (K * Z)) (key : K) :
  sum_counts (incr eqb m key) = sum_counts m + 1.
Proof.
  unfold sum_counts.
  induction m as [|[k0 n] m IH]; cbn [incr fold_right snd]; [lia |].
  destruct (eqb k0 key); cbn [fold_right snd]; lia.
Qed.

Lemma incr_positive (m : list (K * Z)) (key : K) :
  Forall (fun kn => 0 < snd kn) m ->
  Forall (fun kn => 0 < snd kn) (incr eqb m key).
Proof.
  induction m as [|[k0 n] m IH]; cbn [incr]; intros Hpos.
  - constructor; [simpl; lia | constructor].
  - inversion Hpos as [|? ? Hn Hpos']; subst. simpl in Hn.
    destruct (eqb k0 key); constructor; simpl; auto; lia.
Qed.

(** In a map with distinct keys, the entries are the keys with their
    counts. *)
Lemma map_get_In (m : list (K * Z)) (k : K) (n : Z) :
  NoDup (map fst m) ->
  In (k, n) m <-> In k (map fst m) /\ n = map_get eqb m k.
Proof.
  induction m as [|[k0 n0] m IH]; cbn [map fst In map_get]; intros Hnd.
  - intuition.
  - inversion Hnd as [|? ? Hnotin Hnd']; subst.
    destruct (eqb k0 k) eqn:E0.
    + apply eqb_eq in E0. subst k0. split.
      * intros [E | Hin]; [injection E as <-; auto |].
        exfalso. apply Hnotin. apply (in_map fst) in Hin. exact Hin.
      * intros [_ ->]. now left.
    + assert (k0 <> k) by (intros ->; rewrite eqb_same in E0; discriminate).
      rewrite (IH Hnd'). split.
      * intros [E | H1]; [injection E as -> _; contradiction | intuition].
      * intros [[E | H1] H2]; [contradiction | auto].
Qed.

(** The map a loop builds by counting the keys [keys] one after another. *)
Lemma counting_fold (keys : list K) (m : list (K * Z)) :
  let m' := fold_left (incr eqb) keys m in
  (NoDup (map fst m) -> NoDup (map fst m')) /\
  (Forall (fun kn => 0 < snd kn) m -> Forall (fun kn => 0 < snd kn) m') /\
  (forall k, map_get eqb m' k
             = map_get eqb m k
               + Z.of_nat (List.length (filter (fun x => eqb x k) keys))) /\
  (forall k, In k (map fst m') <-> In k keys \/ In k (map fst m)) /\
  sum_counts m' = sum_counts m + Z.of_nat (List.length keys).
Proof.
  revert m. induction keys as [|key keys IH]; intros m; cbn [fold_left].
  - cbv zeta. cbn [filter List.length In].
    repeat split; auto; try lia; intuition.
  - specialize (IH (incr eqb m key)). cbv zeta in *.
    destruct IH as (H1 & H2 & H3 & H4 & H5).
    split; [intros; apply H1; now apply incr_NoDup |].
    split; [intros; apply H2; now apply incr_positive |].
    split; [| split].
    + intros k. rewrite H3, incr_get. cbn [filter].
      destruct (eqb key k); cbn [List.length]; lia.
    + intros k. rewrite H4, incr_keys. cbn [In]. intuition.
    + rewrite H5, incr_sum. cbn [List.length]. lia.
Qed.

End Counters.

Lemma tally_fold_maps (rs : list TestResult.t) (t : Tally) :
  byService (fold_left tally_result rs t)
  = fold_left (incr gostring_eqb) (map TestResult.Service rs) (byService t)
  /\
  byStatusCode (fold_left tally_result rs t)
  = fold_left (incr Z.eqb) (map TestResult.StatusCode rs) (byStatusCode t).
Proof.
  revert t. induction rs as [|r rs IH]; intros t; cbn [fold_left map].
  - auto.
  - destruct (IH (tally_result t r)) as [-> ->].
    unfold tally_result.
    destruct ((200 <=? TestResult.StatusCode r)
              && (TestResult.StatusCode r <? 400));
      [| destruct (TestResult.StatusCode r =? 401);
         [| destruct ((400 <=? TestResult.StatusCode r)
                      || is_some (TestResult.Error r))]];
      cbn [byService byStatusCode]; auto.
Qed.

Lemma filter_length_map {A B : Type} (f : A -> B) (p : B -> bool)
    (l : list A) :
  List.length (filter p (map f l))
  = List.length (filter (fun x => p (f x)) l).
Proof.
  induction l as [|x l IH]; [reflexivity |].
  cbn [map filter]. destruct (p (f x)); cbn [List.length]; now rewrite IH.
Qed.

(** X5: the breakdown by status code that [printSummary] prints has one line
    per status code that occurs among the outcomes, no code twice, each with
    the number of outcomes that have it; the counts add up to the total.
    The breakdown by service is the same, by service name. *)
Theorem printSummary_breakdowns (results : list TestResult.t) :
  let s := printSummary results in
  let codes := byStatusCode (tally s) in
  let services := byService (tally s) in
  (NoDup (map fst codes) /\
   (forall code n,
      In (code, n) codes <->
      0 < n /\
      n = count (fun r => TestResult.StatusCode r =? code) results) /\
   sum_counts codes = total s) /\
  (NoDup (map fst services) /\
   (forall name n,
      In (name, n) services <->
      0 < n /\
      n = count (fun r => gostring_eqb (TestResult.Service r) name) results)
   /\ sum_counts services = total s).
Proof.
  cbv zeta. unfold printSummary. cbn [tally total].
  destruct (tally_fold_maps results (mkTally 0 0 0 [] [])) as [-> ->].
  cbn [byService byStatusCode].
  pose proof (counting_fold Z Z.eqb Z.eqb_eq
                (map TestResult.StatusCode results) []) as Hc.
  pose proof (counting_fold gostring gostring_eqb gostring_eqb_eq
                (map TestResult.Service results) []) as Hs.
  cbv zeta in Hc, Hs.
  destruct Hc as (Hc1 & Hc2 & Hc3 & Hc4 & Hc5).
  destruct Hs as (Hs1 & Hs2 & Hs3 & Hs4 & Hs5).
  specialize (Hc1 (NoDup_nil _)). specialize (Hs1 (NoDup_nil _)).
  specialize (Hc2 (Forall_nil _)). specialize (Hs2 (Forall_nil _)).
  rewrite length_map in Hc5, Hs5. cbn in Hc5, Hs5.
  split; (split; [assumption | split; [| assumption]]).
  - intros code n.
    rewrite (map_get_In Z Z.eqb Z.eqb_eq _ code n Hc1), Hc3.
    cbn [map_get]. rewrite filter_length_map. unfold count. split.
    + intros [Hin ->]. split; [| lia].
      apply in_map_iff in Hin as ([k m] & <- & Hin).
      rewrite Forall_forall in Hc2. specialize (Hc2 _ Hin).
      cbn [fst snd] in *.
      apply (map_get_In Z Z.eqb Z.eqb_eq _ k m Hc1) in Hin as [_ ->].
      rewrite Hc3 in Hc2. cbn [map_get] in Hc2.
      rewrite filter_length_map in Hc2. lia.
    + intros [Hpos ->]. split; [| lia].
      apply Hc4. left.
      destruct (filter (fun x => TestResult.StatusCode x =? code) results)
        as [|r l] eqn:E; [simpl in Hpos; lia |].
      assert (Hr : In r (filter (fun x => TestResult.StatusCode x =? code)
                           results)) by (rewrite E; now left).
      apply filter_In in Hr as [Hr Hcode]. apply Z.eqb_eq in Hcode.
      apply in_map_iff. exists r. auto.
  - intros name n.
    rewrite (map_get_In gostring gostring_eqb gostring_eqb_eq _ name n Hs1),
      Hs3.
    cbn [map_get]. rewrite filter_length_map. unfold count. split.
    + intros [Hin ->]. split; [| lia].
      apply in_map_iff in Hin as ([k m] & <- & Hin).
      rewrite Forall_forall in Hs2. specialize (Hs2 _ Hin).
      cbn [fst snd] in *.
      apply (map_get_In gostring gostring_eqb gostring_eqb_eq _ k m Hs1)
        in Hin as [_ ->].
      rewrite Hs3 in Hs2. cbn [map_get] in Hs2.
      rewrite filter_length_map in Hs2. lia.
    + intros [Hpos ->]. split; [| lia].
      apply Hs4. left.
      destruct (filter (fun x => gostring_eqb (TestResult.Service x) name)
                  results) as [|r l] eqn:E; [simpl in Hpos; lia |].
      assert (Hr : In r (filter
                           (fun x => gostring_eqb (TestResult.Service x) name)
                           results)) by (rewrite E; now left).
      apply filter_In in Hr as [Hr Hname]. apply gostring_eqb_eq in Hname.
      apply in_map_iff. exists r. auto.
Qed.

Lemma count_perm (p : TestResult.t -> bool) (rs rs' : list TestResult.t) :
  Permutation rs rs' -> count p rs = count p rs'.
Proof.
  intros H. induction H as [| r l l' _ IH | r1 r2 l | l1 l2 l3 _ IH1 _ IH2].
  - reflexivity.
  - rewrite !count_cons, IH. reflexivity.
  - rewrite !count_cons. lia.
  - congruence.
Qed.

Lemma filter_perm {A : Type} (p : A -> bool) (l l' : list A) :
  Permutation l l' -> Permutation (filter p l) (filter p l').
Proof.
  intros H. induction H as [| x l l' _ IH | x y l | l1 l2 l3 _ IH1 _ IH2].
  - constructor.
  - cbn [filter]. destruct (p x); [now constructor | assumption].
  - cbn [filter]. destruct (p x), (p y);
      try apply Permutation_refl. apply perm_swap.
  - eapply Permutation_trans; eassumption.
Qed.

(** X6: the summary does not depend on the order of the outcomes: for two
    orderings of the same outcomes, the total, the three tallies and the
    count of every status code and of every service are the same, and the
    problematic routes are the same up to their order. *)
Theorem printSummary_order_independent (results results' : list TestResult.t) :
  Permutation results results' ->
  let s := printSummary results in
  let s' := printSummary results' in
  total s = total s' /\
  successful (tally s) = successful (tally s') /\
  authFailed (tally s) = authFailed (tally s') /\
  otherErrors (tally s) = otherErrors (tally s') /\
  (forall code,
     map_get Z.eqb (byStatusCode (tally s)) code
     = map_get Z.eqb (byStatusCode (tally s')) code) /\
  (forall name,
     map_get gostring_eqb (byService (tally s)) name
     = map_get gostring_eqb (byService (tally s')) name) /\
  Permutation (problematic s) (problematic s').
Proof.
  intros Hperm. cbv zeta.
  destruct (printSummary_counts results) as (-> & -> & ->).
  destruct (printSummary_counts results') as (-> & -> & ->).
  rewrite !(count_perm _ _ _ Hperm), !problematic_filter.
  split.
  { unfold printSummary. cbn [total].
    now rewrite (Permutation_length Hperm). }
  repeat (split; [reflexivity |]).
  unfold printSummary. cbn [tally].
  destruct (tally_fold_maps results (mkTally 0 0 0 [] [])) as [-> ->].
  destruct (tally_fold_maps results' (mkTally 0 0 0 [] [])) as [-> ->].
  cbn [byService byStatusCode].
  split; [| split].
  - intros code.
    destruct (counting_fold Z Z.eqb Z.eqb_eq
                (map TestResult.StatusCode results) [])
      as (_ & _ & -> & _).
    destruct (counting_fold Z Z.eqb Z.eqb_eq
                (map TestResult.StatusCode results') [])
      as (_ & _ & -> & _).
    rewrite !filter_length_map.
    pose proof (count_perm (fun r => TestResult.StatusCode r =? code)
                  _ _ Hperm) as E.
    unfold count in E. lia.
  - intros name.
    destruct (counting_fold gostring gostring_eqb gostring_eqb_eq
                (map TestResult.Service results) [])
      as (_ & _ & -> & _).
    destruct (counting_fold gostring gostring_eqb gostring_eqb_eq
                (map TestResult.Service results') [])
      as (_ & _ & -> & _).
    rewrite !filter_length_map.
    pose proof (count_perm
                  (fun r => gostring_eqb (TestResult.Service r) name)
                  _ _ Hperm) as E.
    unfold count in E. lia.
  - now apply filter_perm.
Qed.

Lemma printSummary_order_independent_witness :
  let a := TestResult.mk (str "svc") (str "r") (str "/a") (str "GET")
             false 401 None [] in
  let b := TestResult.mk (str "svc") (str "r") (str "/b") (str "GET")
             true 200 None [] in
  let s := printSummary [a; b] in
  let s' := printSummary [b; a] in
  total s = total s' /\
  successful (tally s) = successful (tally s') /\
  authFailed (tally s) = authFailed (tally s') /\
  otherErrors (tally s) = otherErrors (tally s') /\
  (forall code,
     map_get Z.eqb (byStatusCode (tally s)) code
     = map_get Z.eqb (byStatusCode (tally s')) code) /\
  (forall name,
     map_get gostring_eqb (byService (tally s)) name
     = map_get gostring_eqb (byService (tally s')) name) /\
  Permutation (problematic s) (problematic s').
Proof.
  cbv zeta.
  apply (printSummary_order_independent
           [TestResult.mk (str "svc") (str "r") (str "/a") (str "GET")
              false 401 None [];
            TestResult.mk (str "svc") (str "r") (str "/b") (str "GET")
              true 200 None []]).
  apply perm_swap.
Defined.

(** X7: every problematic route is counted among the auth failures: the
    list of problematic routes is never longer than the auth-failure tally,
    and the two agree exactly when no outcome of a route that requires auth
    has status 401. *)
Theorem problematic_within_authFailed (results : list TestResult.t) :
  let s := printSummary results in
  Z.of_nat (List.length (problematic s)) <= authFailed (tally s) /\
  (Z.of_nat (List.length (problematic s)) = authFailed (tally s) <->
   forall r, In r results -> TestResult.StatusCode r = 401 ->
             TestResult.RequiresAuth r = false).
Proof.
  cbv zeta. rewrite problematic_filter.
  destruct (printSummary_counts results) as (_ & -> & _).
  assert (H401 : forall r, is_authFailed r = (TestResult.StatusCode r =? 401)).
  { intros r. unfold is_authFailed, is_success.
    destruct (Z.eqb_spec (TestResult.StatusCode r) 401) as [-> | N];
      [reflexivity | apply andb_false_r]. }
  induction results as [|x results IH].
  - split; [reflexivity |]. split; [intros _ r [] | reflexivity].
  - rewrite count_cons, H401. cbn [filter].
    destruct IH as [IHle IHeq].
    destruct (Z.eqb_spec (TestResult.StatusCode x) 401) as [E | N];
      destruct (TestResult.RequiresAuth x) eqn:A; cbn [andb negb List.length].
    + split; [lia |]. split.
      * intros H. lia.
      * intros H. specialize (H x (or_introl eq_refl) E). congruence.
    + split; [lia |]. rewrite Nat2Z.inj_succ. split.
      * intros H r [<- | Hin] Hr; [assumption |].
        apply IHeq; [lia | assumption | assumption].
      * intros H. assert (Hrest : Z.of_nat (List.length
                 (filter (fun r => (TestResult.StatusCode r =? 401)
                                   && negb (TestResult.RequiresAuth r))
                    results)) = count is_authFailed results).
        { apply IHeq. intros r Hin. apply H. now right. }
        lia.
    + split; [lia |]. split.
      * intros H r [<- | Hin] Hr; [congruence |].
        apply IHeq; [lia | assumption | assumption].
      * intros H. assert (Hrest : Z.of_nat (List.length
                 (filter (fun r => (TestResult.StatusCode r =? 401)
                                   && negb (TestResult.RequiresAuth r))
                    results)) = count is_authFailed results).
        { apply IHeq. intros r Hin. apply H. now right. }
        lia.
    + split; [lia |]. split.
      * intros H r [<- | Hin] Hr; [congruence |].
        apply IHeq; [lia | assumption | assumption].
      * intros H. assert (Hrest : Z.of_nat (List.length
                 (filter (fun r => (TestResult.StatusCode r =? 401)
                                   && negb (TestResult.RequiresAuth r))
                    results)) = count is_authFailed results).
        { apply IHeq. intros r Hin. apply H. now right. }
        lia.
Qed.

(** ** More on [handleTemplating] *)

Lemma replace_from_no_opener (repl : gostring -> gostring) (s : gostring) :
  strings.Contains s (str "${") = false ->
  regexp.replace_from repl 0 s = s.
Proof.
  induction s as [|c s IH]; [reflexivity |].
  cbn [strings.Contains]. intros H. apply orb_false_iff in H as [Hp Hc].
  cbn [regexp.replace_from].
  rewrite (re_match_not_open (c :: s) Hp), (IH Hc). reflexivity.
Qed.

Lemma replace_from_no_match (repl : gostring -> gostring) (c : ascii)
    (s : gostring) :
  regexp.re_match (c :: s) = None ->
  regexp.replace_from repl 0 (c :: s) = c :: regexp.replace_from repl 0 s.
Proof.
  intros H. cbn [regexp.replace_from]. now rewrite H.
Qed.

(** X8: a text in which a dollar sign is nowhere followed by an opening
    brace comes back from [handleTemplating] byte for byte, whatever the
    environment. *)
Theorem handleTemplating_no_opener (Getenv : gostring -> gostring)
    (data : gostring) :
  strings.Contains data (str "${") = false ->
  handleTemplating Getenv data = data.
Proof.
  intros H. unfold handleTemplating, regexp.ReplaceAllFunc.
  now apply replace_from_no_opener.
Qed.

Lemma handleTemplating_no_opener_witness :
  handleTemplating host_env (str "price: $5 {not a placeholder}")
  = str "price: $5 {not a placeholder}".
Proof.
  apply (handleTemplating_no_opener host_env
           (str "price: $5 {not a placeholder}")).
  reflexivity.
Defined.

(** X9: a placeholder written with an operator other than the question mark
    and the equals sign (the common colon-dash form, for one) is no match of
    the pattern: it is left in the text as it is, even when its variable is
    set. *)
Theorem handleTemplating_other_operator_kept (Getenv : gostring -> gostring)
    (name : gostring) (op : ascii) (rest : gostring) :
  valid_name name = true ->
  regexp.op_byte op = false ->
  strings.Contains ("{"%char :: name ++ ":"%char :: op :: rest) (str "${")
  = false ->
  handleTemplating Getenv (str "${" ++ name ++ ":"%char :: op :: rest)
  = str "${" ++ name ++ ":"%char :: op :: rest.
Proof.
  intros Hn Hop Hrest. unfold handleTemplating, regexp.ReplaceAllFunc.
  change (str "${" ++ name ++ ":"%char :: op :: rest)
    with ("$"%char :: "{"%char :: name ++ ":"%char :: op :: rest).
  assert (Hm : regexp.re_match
                 ("$"%char :: "{"%char :: name ++ ":"%char :: op :: rest)
               = None).
  { unfold regexp.re_match. unfold valid_name in Hn.
    apply andb_true_iff in Hn as [Hne Hn].
    rewrite (span_all regexp.name_byte name (":"%char :: op :: rest) Hn
               eq_refl).
    destruct name; [discriminate |]. now rewrite Hop. }
  rewrite (replace_from_no_match _ _ _ Hm). f_equal.
  now apply replace_from_no_opener.
Qed.

Lemma handleTemplating_other_operator_kept_witness :
  handleTemplating host_env (str "${" ++ str "HOST" ++ ":"%char :: "-"%char
                               :: str "localhost}")
  = str "${" ++ str "HOST" ++ ":"%char :: "-"%char :: str "localhost}".
Proof.
  apply (handleTemplating_other_operator_kept host_env (str "HOST") "-"%char
           (str "localhost}")); reflexivity.
Defined.

(** ** What a run does, step by step *)

(** A relation between the state before and the state after that is
    reflexive and transitive and holds of every step of a run (a walk of the
    replacement map, a "Skipping" line, a call of [testEndpoint] with the
    pause behind it) holds of the run. *)
Section Steps.

Variable rt : Runtime.
Variable flags : Flags.
Variable R : State rt -> State rt -> Prop.

Hypothesis R_refl : forall s, R s s.
Hypothesis R_trans : forall s1 s2 s3, R s1 s2 -> R s2 s3 -> R s1 s3.
Hypothesis R_range : forall s, R s (snd (range_order s)).
Hypothesis R_skip :
  forall name s,
    verbose flags = true -> skipped_service name = true ->
    R s (snd (Println (SkippingLine name) s)).
Hypothesis R_ok :
  forall service route path method auth s r s1,
    testEndpoint rt flags service route path method auth s = (Ok r, s1) ->
    R s (snd (Sleep 100 s1)).
Hypothesis R_panic :
  forall service route path method auth s s1,
    testEndpoint rt flags service route path method auth s = (Panic, s1) ->
    R s s1.

Lemma testRoutes_methods_steps (service : Service.t) (route : Route.t)
    (path : gostring) (hasAuth : bool) (methods : list gostring) :
  forall (a : Acc) (s : State rt),
    R s (snd (testRoutes_methods rt flags service route path hasAuth
                methods a s)).
Proof.
  induction methods as [|method methods IH]; intros a s.
  - apply R_refl.
  - cbn [testRoutes_methods].
    destruct ((0 <? maxRequests flags)
              && (maxRequests flags <=? requestCount a)); [apply R_refl |].
    unfold bind at 1.
    destruct (testEndpoint rt flags (Service.Name service) (Route.Name route)
                path method hasAuth s) as [[r |] s1] eqn:E.
    + unfold bind at 1.
      pose proof (R_ok _ _ _ _ _ _ _ _ E) as H.
      destruct (Sleep 100 s1) as [[[] |] s2] eqn:E2; cbn [snd] in H.
      * eapply R_trans; [exact H | apply IH].
      * exact H.
    + cbn [snd]. exact (R_panic _ _ _ _ _ _ _ E).
Qed.

Lemma seq_steps (m : M rt Ctl) (k : Acc -> M rt Ctl) (s : State rt) :
  R s (snd (m s)) ->
  (forall a1 s1, R s1 (snd (k a1 s1))) ->
  R s (snd ((c <- m ;;
             match c with
             | Next a1 => k a1
             | Return rs => ret (Return rs)
             end) s)).
Proof.
  intros Hm Hk. unfold bind.
  destruct (m s) as [[[a1 | rs] |] s1]; cbn [snd] in *.
  - eapply R_trans; [exact Hm | apply Hk].
  - exact Hm.
  - exact Hm.
Qed.

Lemma testRoutes_paths_steps (service : Service.t) (route : Route.t)
    (hasAuth : bool) (methods paths : list gostring) :
  forall (a : Acc) (s : State rt),
    R s (snd (testRoutes_paths rt flags service route hasAuth methods
                paths a s)).
Proof.
  induction paths as [|declared paths IH]; intros a s.
  - apply R_refl.
  - cbn [testRoutes_paths]. unfold bind at 1.
    destruct (strings.Contains declared (str "(?<")).
    + unfold bind at 1. pose proof (R_range s) as Hr.
      destruct (range_order s) as [[order |] s0]; cbn [snd] in Hr;
        [| exact Hr].
      unfold ret at 1. eapply R_trans; [exact Hr |].
      apply seq_steps; [apply testRoutes_methods_steps | intros; apply IH].
    + unfold ret at 1.
      apply seq_steps; [apply testRoutes_methods_steps | intros; apply IH].
Qed.

Lemma testRoutes_routes_steps (service : Service.t) (routes : list Route.t) :
  forall (a : Acc) (s : State rt),
    R s (snd (testRoutes_routes rt flags service routes a s)).
Proof.
  induction routes as [|route routes IH]; intros a s.
  - apply R_refl.
  - cbn [testRoutes_routes].
    destruct (hasAuthPlugin route service && negb (testAuth flags));
      [apply IH |].
    destruct (negb (hasAuthPlugin route service) && negb (testUnauth flags));
      [apply IH |].
    apply seq_steps; [apply testRoutes_paths_steps | intros; apply IH].
Qed.

Lemma testRoutes_services_steps (services : list Service.t) :
  forall (a : Acc) (s : State rt),
    R s (snd (testRoutes_services rt flags services a s)).
Proof.
  induction services as [|service services IH]; intros a s.
  - apply R_refl.
  - cbn [testRoutes_services].
    destruct (skipped_service (Service.Name service)) eqn:Hskip.
    + unfold bind at 1.
      pose proof (R_skip (Service.Name service) s) as H.
      destruct (verbose flags).
      * specialize (H eq_refl Hskip).
        destruct (Println (SkippingLine (Service.Name service)) s)
          as [[[] |] s1]; cbn [snd] in H; [| exact H].
        eapply R_trans; [exact H | apply IH].
      * unfold ret at 1. apply IH.
    + apply seq_steps; [apply testRoutes_routes_steps | intros; apply IH].
Qed.

Lemma testRoutes_steps (config : KongConfig.t) (s : State rt) :
  R s (snd (testRoutes rt flags config s)).
Proof.
  unfold testRoutes, bind.
  pose proof (testRoutes_services_steps (KongConfig.Services config)
                (mkAcc [] 0) s) as H.
  destruct (testRoutes_services rt flags (KongConfig.Services config)
              (mkAcc [] 0) s) as [[[a1 | rs] |] s1]; exact H.
Qed.

End Steps.

(** ** [testEndpoint], case by case *)

Lemma printResult_Ok (rt : Runtime) (flags : Flags) (r : TestResult.t)
    (s : State rt) :
  printResult rt flags r s = (Ok tt, snd (printResult rt flags r s)).
Proof.
  unfold printResult.
  destruct (negb (verbose flags) && (200 <=? TestResult.StatusCode r)
            && (TestResult.StatusCode r <? 400)); reflexivity.
Qed.

(** The four ways a call of [testEndpoint] goes. *)
Lemma testEndpoint_cases (rt : Runtime) (flags : Flags)
    (service route path method : gostring) (requiresAuth : bool)
    (s : State rt) :
  let p := mkProbe service route path method requiresAuth in
  testEndpoint rt flags service route path method requiresAuth s
  = if dryRun flags then
      reported rt flags p
        (TestResult.mk service route path method requiresAuth 0 None
           (str "DRY RUN"))
        (world s) s
    else
      match NewRequest_error rt method (baseURL flags ++ path) with
      | Some err =>
          if has_body method
          then (Panic, mkState (world s) (stdout s) (issued s ++ [p]))
          else reported rt flags p (outcome_of rt p (inr err)) (world s) s
      | None =>
          reported rt flags p
            (outcome_of rt p
               (fst (client_Do rt (request_of flags p) (world s))))
            (snd (client_Do rt (request_of flags p) (world s))) s
      end.
Proof.
  cbv zeta. unfold testEndpoint, bind, issue, reported. cbn [fst snd].
  destruct (dryRun flags).
  { rewrite printResult_Ok. reflexivity. }
  unfold http_NewRequest, Request_Header_Set, client_Do_ptr, Do, panic, ret,
    request_of.
  cbn [probe_method probe_path probe_requiresAuth].
  destruct (NewRequest_error rt method (baseURL flags ++ path)) as [err |];
    destruct (has_body method); cbn [fst snd].
  - reflexivity.
  - rewrite printResult_Ok. reflexivity.
  - destruct (requiresAuth && negb (gostring_eqb (authToken flags) []));
      cbn [fst snd http.Method http.URL http.Body http.Header app world
             stdout issued];
      unfold http.Header_Set; cbn [filter fst];
      change (gostring_eqb (str "Content-Type") (str "Authorization"))
        with false; cbn [negb];
      match goal with
      | |- ?l = ?r =>
          match l with
          | context [client_Do rt ?rl ?wl] =>
              match r with
              | context [client_Do rt ?rr ?wr] =>
                  change (client_Do rt rl wl) with (client_Do rt rr wr);
                  destruct (client_Do rt rr wr) as [[resp | e] w']
              end
          end
      end; cbn [fst snd outcome_of];
      try destruct (400 <=? http.StatusCode resp);
      rewrite printResult_Ok; reflexivity.
  - destruct (requiresAuth && negb (gostring_eqb (authToken flags) []));
      cbn [fst snd http.Method http.URL http.Body http.Header app world
             stdout issued];
      unfold http.Header_Set; cbn [filter fst];
      match goal with
      | |- ?l = ?r =>
          match l with
          | context [client_Do rt ?rl ?wl] =>
              match r with
              | context [client_Do rt ?rr ?wr] =>
                  change (client_Do rt rl wl) with (client_Do rt rr wr);
                  destruct (client_Do rt rr wr) as [[resp | e] w']
              end
          end
      end; cbn [fst snd outcome_of];
      try destruct (400 <=? http.StatusCode resp);
      rewrite printResult_Ok; reflexivity.
Qed.

(** X10: outside dry-run mode, when the request of a probe can be built,
    [testEndpoint] makes exactly one call of [client.Do], with the request
    of the probe: its method, the base URL followed by its path, the sample
    body and the Content-Type header exactly for POST, PUT and PATCH, and
    the Authorization header with the bearer token exactly when the probe
    requires auth and a token is set.  It returns the status of the
    response, with no error and, from status 400 up, the message of the
    body; or, when the exchange fails, the error with status 0 and no
    message.  The world is left as [client.Do] left it. *)
Theorem testEndpoint_exchange (rt : Runtime) (flags : Flags)
    (service route path method : gostring) (requiresAuth : bool)
    (s : State rt) :
  dryRun flags = false ->
  NewRequest_error rt method (baseURL flags ++ path) = None ->
  let p := mkProbe service route path method requiresAuth in
  let out := testEndpoint rt flags service route path method requiresAuth s in
  let request :=
    http.mkRequest method (baseURL flags ++ path)
      (if has_body method then Some sample_body else None)
      ((if requiresAuth && negb (gostring_eqb (authToken flags) [])
        then [(str "Authorization", str "Bearer " ++ authToken flags)]
        else [])
       ++ (if has_body method
           then [(str "Content-Type", str "application/json")]
           else [])) in
  let answer := client_Do rt request (world s) in
  world (snd out) = snd answer /\
  fst out
  = Ok (match fst answer with
        | inl resp =>
            TestResult.mk service route path method requiresAuth
              (http.StatusCode resp) None
              (if 400 <=? http.StatusCode resp
               then error_message rt (http.ResponseBody resp) []
               else [])
        | inr err =>
            TestResult.mk service route path method requiresAuth 0
              (Some err) []
        end).
Proof.
  intros Hdry Hnew. cbv zeta.
  rewrite testEndpoint_cases. cbv zeta. rewrite Hdry, Hnew.
  unfold reported, request_of, outcome_of.
  cbn [fst snd probe_service probe_route probe_method probe_path
         probe_requiresAuth].
  split; [| reflexivity].
  match goal with
  | |- world (snd (printResult rt flags ?r ?s0)) = _ =>
      destruct (printResult_run rt flags r s0) as (_ & _ & ->)
  end.
  reflexivity.
Qed.

Lemma testEndpoint_exchange_witness :
  let out :=
    testEndpoint example_runtime (example_flags false 0) (str "accounts")
      (str "login") (str "/login") (str "POST") true
      (initial_state example_runtime 1%nat) in
  world (snd out) = 2%nat /\
  fst out
  = Ok (TestResult.mk (str "accounts") (str "login") (str "/login")
          (str "POST") true 401 None []).
Proof.
  cbv zeta.
  apply (testEndpoint_exchange example_runtime (example_flags false 0)
           (str "accounts") (str "login") (str "/login") (str "POST") true
           (initial_state example_runtime 1%nat)); reflexivity.
Defined.

(** ** The lines a run prints *)






(** ** The requests and the pauses of a run *)

Lemma testEndpoint_events (rt : Runtime) (flags : Flags)
    (service route path method : gostring) (requiresAuth : bool)
    (s : State (recording rt)) :
  let p := mkProbe service route path method requiresAuth in
  let out :=
    testEndpoint (recording rt) flags service route path method
      requiresAuth s in
  issued (snd out) = issued s ++ [p] /\
  match fst out with
  | Ok _ =>
      probe_panics rt flags p = false /\
      event_log (snd out) = event_log s ++ probe_requests rt flags p
  | Panic =>
      probe_panics rt flags p = true /\ event_log (snd out) = event_log s
  end.
Proof.
  cbv zeta. rewrite testEndpoint_cases. cbv zeta.
  unfold probe_panics, probe_requests, event_log, reported.
  cbn [probe_method probe_path NewRequest_error recording].
  assert (Hrep : forall (r : TestResult.t) (w : World (recording rt)),
            issued (snd (printResult (recording rt) flags r
                           (mkState w (stdout s)
                              (issued s
                               ++ [mkProbe service route path method
                                     requiresAuth]))))
            = issued s ++ [mkProbe service route path method requiresAuth]
            /\
            world (snd (printResult (recording rt) flags r
                          (mkState w (stdout s)
                             (issued s
                              ++ [mkProbe service route path method
                                    requiresAuth]))))
            = w).
  { intros r w.
    destruct (printResult_run (recording rt) flags r
                (mkState w (stdout s)
                   (issued s
                    ++ [mkProbe service route path method requiresAuth])))
      as (_ & H1 & H2).
    auto. }
  destruct (dryRun flags); cbn [negb andb fst snd].
  { destruct (Hrep (TestResult.mk service route path method requiresAuth 0
                      None (str "DRY RUN")) (world s)) as [-> ->].
    rewrite app_nil_r. auto. }
  destruct (NewRequest_error rt method (baseURL flags ++ path)) as [err |];
    [destruct (has_body method) |]; cbn [fst snd is_some andb].
  - auto.
  - match goal with
    | |- context [printResult (recording rt) flags ?r (mkState ?w _ _)] =>
        destruct (Hrep r w) as [-> ->]
    end.
    rewrite app_nil_r. auto.
  - match goal with
    | |- context [printResult (recording rt) flags ?r (mkState ?w _ _)] =>
        destruct (Hrep r w) as [-> ->]
    end.
    split; [reflexivity |]. split; [apply andb_false_r |].
    cbn [client_Do recording].
    destruct (client_Do rt
                (request_of flags
                   (mkProbe service route path method requiresAuth))
                (fst (world s))); reflexivity.
Qed.

(** X12: in a world that records them, the requests passed to [client.Do]
    and the pauses of a run are exactly, probe after probe in the order the
    probes are made: the request of the probe (none in dry-run mode, none
    when [http.NewRequest] refuses it) and then one pause of 100
    milliseconds; a probe that panics adds nothing.  So a dry run sends no
    request and still pauses after every probe, and two requests are never
    sent without a pause between them. *)
Theorem testRoutes_events (rt : Runtime) (flags : Flags)
    (config : KongConfig.t) (s : State (recording rt)) :
  let out := testRoutes (recording rt) flags config s in
  exists probes,
    issued (snd out) = issued s ++ probes /\
    event_log (snd out)
    = event_log s ++ flat_map (probe_events rt flags) probes /\
    (dryRun flags = true ->
     event_log (snd out) = event_log s ++ map (fun _ => Slept 100) probes).
Proof.
  cbv zeta.
  assert (H : exists probes,
            issued (snd (testRoutes (recording rt) flags config s))
            = issued s ++ probes /\
            event_log (snd (testRoutes (recording rt) flags config s))
            = event_log s ++ flat_map (probe_events rt flags) probes).
  { apply (testRoutes_steps (recording rt) flags
             (fun s s' =>
                exists probes,
                  issued s' = issued s ++ probes /\
                  event_log s'
                  = event_log s ++ flat_map (probe_events rt flags) probes)).
    - intros s0. exists []. cbn. now rewrite !app_nil_r.
    - intros s1 s2 s3 (p1 & H1 & H2) (p2 & H3 & H4).
      exists (p1 ++ p2).
      rewrite H3, H1, H4, H2, flat_map_app, <- !app_assoc. auto.
    - intros s0. exists []. unfold range_order, event_log.
      cbn [range_replacements recording]. unfold recording_range.
      destruct (range_replacements rt (fst (world s0))). cbn.
      now rewrite !app_nil_r.
    - intros name s0 _ _. exists []. cbn. now rewrite !app_nil_r.
    - intros service route path method auth s0 r s1 E.
      pose proof (testEndpoint_events rt flags service route path method
                    auth s0) as H.
      cbv zeta in H. rewrite E in H. cbn [fst snd] in H.
      destruct H as (H1 & H2 & H3).
      exists [mkProbe service route path method auth].
      unfold Sleep, event_log in *. cbn [snd issued world flat_map].
      unfold probe_events. rewrite H2, app_nil_r.
      cbn [time_Sleep recording snd]. rewrite H3, <- app_assoc. auto.
    - intros service route path method auth s0 s1 E.
      pose proof (testEndpoint_events rt flags service route path method
                    auth s0) as H.
      cbv zeta in H. rewrite E in H. cbn [fst snd] in H.
      destruct H as (H1 & H2 & H3).
      exists [mkProbe service route path method auth].
      cbn [flat_map]. unfold probe_events. rewrite H2. cbn.
      rewrite app_nil_r. auto. }
  destruct H as (probes & H1 & H2). exists probes.
  split; [assumption |]. split; [assumption |].
  intros Hdry. rewrite H2. f_equal.
  clear H1 H2. induction probes as [|p probes IH]; [reflexivity |].
  cbn [flat_map map]. rewrite IH.
  unfold probe_events, probe_panics, probe_requests. rewrite Hdry.
  reflexivity.
Qed.

(** ** What [testRoutes] probes and what it leaves out *)

Lemma HasPrefix_iff (s prefix : gostring) :
  strings.HasPrefix s prefix = true <-> exists b, s = prefix ++ b.
Proof.
  revert s. induction prefix as [|c prefix IH]; intros s; cbn.
  - split; [intros _; now exists s | reflexivity].
  - destruct s as [|d s].
    + split; [discriminate | intros (b & H); discriminate].
    + rewrite andb_true_iff, Ascii.eqb_eq, IH. split.
      * intros [-> (b & ->)]. now exists b.
      * intros (b & H). injection H as -> ->. eauto.
Qed.

Lemma Contains_iff (s substr : gostring) :
  strings.Contains s substr = true <-> exists a b, s = a ++ substr ++ b.
Proof.
  induction s as [|c s IH]; cbn [strings.Contains].
  - rewrite orb_false_r, HasPrefix_iff. split.
    + intros (b & H). exists [], b. exact H.
    + intros (a & b & H). destruct a; [now exists b |]. discriminate.
  - rewrite orb_true_iff, HasPrefix_iff, IH. split.
    + intros [(b & H) | (a & b & ->)].
      * exists [], b. exact H.
      * now exists (c :: a), b.
    + intros (a & b & H). destruct a as [|x a].
      * left. now exists b.
      * right. injection H as _ ->. eauto.
Qed.

Lemma plan_selected (flags : Flags) (config : KongConfig.t) (pl : Planned) :
  In pl (plan flags config) ->
  skipped_service (Service.Name (planned_service pl)) = false /\
  route_tested flags (planned_service pl) (planned_route pl) = true.
Proof.
  unfold plan, service_plan, route_plan. intros H.
  apply in_flat_map in H as (service & Hs & H).
  apply filter_In in Hs as [_ Hs]. apply negb_true_iff in Hs.
  apply in_flat_map in H as (route & Hr & H).
  apply filter_In in Hr as [_ Hr].
  apply in_flat_map in H as (path & _ & H).
  apply in_map_iff in H as (method & <- & _). simpl. auto.
Qed.

(** X13: a run never probes a service whose name has "test" or
    "health-check" anywhere in it, or is "atlantis" or "atlantis-legacy";
    with the toggle for authenticated routes off it makes no probe that
    requires auth, and with the toggle for unauthenticated routes off it
    makes no probe that does not. *)
Theorem testRoutes_selection (rt : Runtime) (flags : Flags)
    (config : KongConfig.t) (s : State rt) :
  let out := testRoutes rt flags config s in
  exists probes,
    issued (snd out) = issued s ++ probes /\
    Forall
      (fun p =>
         (forall a b, probe_service p <> a ++ str "test" ++ b) /\
         (forall a b, probe_service p <> a ++ str "health-check" ++ b) /\
         probe_service p <> str "atlantis" /\
         probe_service p <> str "atlantis-legacy" /\
         (testAuth flags = false -> probe_requiresAuth p = false) /\
         (testUnauth flags = false -> probe_requiresAuth p = true))
      probes.
Proof.
  cbv zeta.
  destruct (testRoutes_refines_plan rt flags config s)
    as (done & rest & new & Hpl & Hiss & Hreal & _).
  exists new. split; [assumption |].
  assert (Hin : forall pl, In pl done -> In pl (plan flags config)).
  { intros pl H. rewrite Hpl. apply in_or_app. now left. }
  clear Hpl Hiss. induction Hreal as [|p pl new done Hp _ IH];
    constructor.
  - destruct (plan_selected flags config pl (Hin pl (or_introl eq_refl)))
      as [Hskip Htested].
    destruct Hp as (Hname & _ & _ & _ & Hauth).
    unfold skipped_service in Hskip.
    apply orb_false_iff in Hskip as [Hskip H4].
    apply orb_false_iff in Hskip as [Hskip H3].
    apply orb_false_iff in Hskip as [H1 H2].
    rewrite <- Hname in H1, H2, H3, H4.
    split; [| split; [| split; [| split; [| split]]]].
    + intros a b E.
      assert (strings.Contains (probe_service p) (str "test") = true)
        by (apply Contains_iff; eauto).
      congruence.
    + intros a b E.
      assert (strings.Contains (probe_service p) (str "health-check") = true)
        by (apply Contains_iff; eauto).
      congruence.
    + now apply gostring_eqb_neq.
    + now apply gostring_eqb_neq.
    + intros Hoff. rewrite Hauth. unfold route_tested in Htested.
      destruct (hasAuthPlugin (planned_route pl) (planned_service pl));
        congruence.
    + intros Hoff. rewrite Hauth. unfold route_tested in Htested.
      destruct (hasAuthPlugin (planned_route pl) (planned_service pl));
        congruence.
  - apply IH. intros x Hx. apply Hin. now right.
Qed.

(** ** How a run ends *)

Section Ends.

Variable rt : Runtime.
Variable flags : Flags.

Lemma ends_quiet {A : Type} (s : State rt) (a : A) (s' : State rt) :
  issued s' = issued s -> ends_at_panic rt flags s (Ok a, s').
Proof.
  intros E. exists []. cbn [fst snd]. rewrite app_nil_r. auto.
Qed.

Lemma ends_bind {A B : Type} (m : M rt A) (k : A -> M rt B) (s : State rt) :
  ends_at_panic rt flags s (m s) ->
  (forall a s1, ends_at_panic rt flags s1 (k a s1)) ->
  ends_at_panic rt flags s ((x <- m ;; k x) s).
Proof.
  intros (new1 & H1 & Hend1) Hk. unfold bind.
  destruct (m s) as [[a |] s1]; cbn [fst snd] in *.
  - destruct (Hk a s1) as (new2 & H2 & Hend2).
    exists (new1 ++ new2). rewrite H2, H1, <- app_assoc.
    split; [reflexivity |].
    destruct (fst (k a s1)).
    + rewrite existsb_app, Hend1, Hend2. reflexivity.
    + destruct Hend2 as (new' & p & -> & Hq & Hp).
      exists (new1 ++ new'), p. rewrite <- app_assoc, existsb_app, Hend1, Hq.
      auto.
  - exists new1. auto.
Qed.

Lemma testEndpoint_ends (service route path method : gostring)
    (requiresAuth : bool) (s : State rt) :
  ends_at_panic rt flags s
    (testEndpoint rt flags service route path method requiresAuth s).
Proof.
  exists [mkProbe service route path method requiresAuth].
  rewrite testEndpoint_cases. cbv zeta.
  unfold reported.
  assert (Hrep : forall (r : TestResult.t) (w : World rt),
            issued (snd (printResult rt flags r
                           (mkState w (stdout s)
                              (issued s
                               ++ [mkProbe service route path method
                                     requiresAuth]))))
            = issued s ++ [mkProbe service route path method requiresAuth]).
  { intros r w.
    destruct (printResult_run rt flags r
                (mkState w (stdout s)
                   (issued s
                    ++ [mkProbe service route path method requiresAuth])))
      as (_ & H1 & _).
    exact H1. }
  assert (Hp : probe_panics rt flags
                 (mkProbe service route path method requiresAuth)
               = negb (dryRun flags) && has_body method
                 && is_some (NewRequest_error rt method
                               (baseURL flags ++ path))) by reflexivity.
  cbn [existsb]. rewrite orb_false_r, Hp.
  destruct (dryRun flags); cbn [negb andb fst snd].
  { rewrite Hrep. auto. }
  destruct (NewRequest_error rt method (baseURL flags ++ path)) as [err |];
    [destruct (has_body method) |]; cbn [fst snd is_some andb issued].
  - split; [reflexivity |].
    exists [], (mkProbe service route path method requiresAuth).
    rewrite Hp. auto.
  - rewrite Hrep. auto.
  - rewrite Hrep, andb_false_r. auto.
Qed.

Lemma testRoutes_methods_ends (service : Service.t) (route : Route.t)
    (path : gostring) (hasAuth : bool) (methods : list gostring) :
  forall (a : Acc) (s : State rt),
    ends_at_panic rt flags s
      (testRoutes_methods rt flags service route path hasAuth methods a s).
Proof.
  induction methods as [|method methods IH]; intros a s.
  - now apply ends_quiet.
  - cbn [testRoutes_methods].
    destruct ((0 <? maxRequests flags)
              && (maxRequests flags <=? requestCount a));
      [now apply ends_quiet |].
    apply ends_bind; [apply testEndpoint_ends |].
    intros r s1. apply ends_bind; [now apply ends_quiet |].
    intros _ s2. apply IH.
Qed.

Lemma ends_seq (m : M rt Ctl) (k : Acc -> M rt Ctl) (s : State rt) :
  ends_at_panic rt flags s (m s) ->
  (forall a1 s1, ends_at_panic rt flags s1 (k a1 s1)) ->
  ends_at_panic rt flags s
    ((c <- m ;;
      match c with
      | Next a1 => k a1
      | Return rs => ret (Return rs)
      end) s).
Proof.
  intros Hm Hk. apply ends_bind; [exact Hm |].
  intros [a1 | rs] s1; [apply Hk | now apply ends_quiet].
Qed.

Lemma testRoutes_paths_ends (service : Service.t) (route : Route.t)
    (hasAuth : bool) (methods paths : list gostring) :
  forall (a : Acc) (s : State rt),
    ends_at_panic rt flags s
      (testRoutes_paths rt flags service route hasAuth methods paths a s).
Proof.
  induction paths as [|declared paths IH]; intros a s.
  - now apply ends_quiet.
  - cbn [testRoutes_paths]. apply ends_bind.
    + destruct (strings.Contains declared (str "(?<"));
        [| now apply ends_quiet].
      unfold bind, range_order, ret.
      destruct (range_replacements rt (world s)). now apply ends_quiet.
    + intros path s0.
      apply ends_seq; [apply testRoutes_methods_ends | intros; apply IH].
Qed.

Lemma testRoutes_routes_ends (service : Service.t) (routes : list Route.t) :
  forall (a : Acc) (s : State rt),
    ends_at_panic rt flags s (testRoutes_routes rt flags service routes a s).
Proof.
  induction routes as [|route routes IH]; intros a s.
  - now apply ends_quiet.
  - cbn [testRoutes_routes].
    destruct (hasAuthPlugin route service && negb (testAuth flags));
      [apply IH |].
    destruct (negb (hasAuthPlugin route service) && negb (testUnauth flags));
      [apply IH |].
    apply ends_seq; [apply testRoutes_paths_ends | intros; apply IH].
Qed.

Lemma testRoutes_services_ends (services : list Service.t) :
  forall (a : Acc) (s : State rt),
    ends_at_panic rt flags s (testRoutes_services rt flags services a s).
Proof.
  induction services as [|service services IH]; intros a s.
  - now apply ends_quiet.
  - cbn [testRoutes_services].
    destruct (skipped_service (Service.Name service)).
    + apply ends_bind; [| intros; apply IH].
      destruct (verbose flags); now apply ends_quiet.
    + apply ends_seq; [apply testRoutes_routes_ends | intros; apply IH].
Qed.

Lemma testRoutes_ends (config : KongConfig.t) (s : State rt) :
  ends_at_panic rt flags s (testRoutes rt flags config s).
Proof.
  unfold testRoutes. apply ends_bind; [apply testRoutes_services_ends |].
  intros [a1 | rs] s1; now apply ends_quiet.
Qed.

End Ends.

(** The probes of a run carry out a prefix of the plan; the run returns
    with all of the plan done, or with the budget used up; it panics at a
    probe that panics, and at the first one. *)
Lemma testRoutes_run (rt : Runtime) (flags : Flags) (config : KongConfig.t)
    (s : State rt) :
  let out := testRoutes rt flags config s in
  exists done rest new,
    plan flags config = done ++ rest /\
    issued (snd out) = issued s ++ new /\
    Forall2 realizes new done /\
    match fst out with
    | Ok rs =>
        map probe_of rs = new /\
        existsb (probe_panics rt flags) new = false /\
        (rest = [] \/
         (0 < maxRequests flags /\
          Z.of_nat (List.length done) = maxRequests flags))
    | Panic =>
        exists new' p,
          new = new' ++ [p] /\
          existsb (probe_panics rt flags) new' = false /\
          probe_panics rt flags p = true
    end.
Proof.
  cbv zeta.
  destruct (testRoutes_refines_plan rt flags config s)
    as (done & rest & new & Hpl & Hiss & Hreal & _ & Hret & _).
  destruct (testRoutes_ends rt flags config s) as (new2 & Hiss2 & Hend).
  rewrite Hiss in Hiss2. apply app_inv_head in Hiss2. subst new2.
  exists done, rest, new.
  split; [assumption |]. split; [assumption |]. split; [assumption |].
  destruct (fst (testRoutes rt flags config s)) as [rs |].
  - destruct (Hret rs eq_refl) as (Hnew & _ & Hstop). auto.
  - exact Hend.
Qed.

(** C7: the probes of a run carry out, one by one and in order, the probes
    of the plan (every declared path of every tested route, with every
    method of the route); the path of each probe is the declared path when
    that has no capture syntax, and its expansion by [expandRegexPath]
    (under the walk the runtime made) when it has.  A run that returns has
    done so for all of the plan, or for as much of it as a positive budget
    allows, and its outcomes carry the paths of the probes; a run that
    panics has done so up to the probe whose request could not be built. *)
Theorem testRoutes_paths_materialized (rt : Runtime) (flags : Flags)
    (config : KongConfig.t) (s : State rt) :
  let out := testRoutes rt flags config s in
  exists done rest new,
    plan flags config = done ++ rest /\
    issued (snd out) = issued s ++ new /\
    Forall2
      (fun p pl =>
         probe_service p = Service.Name (planned_service pl) /\
         probe_route p = Route.Name (planned_route pl) /\
         probe_method p = planned_method pl /\
         if strings.Contains (planned_path pl) (str "(?<")
         then exists order,
                Permutation replacements order /\
                probe_path p = expandRegexPath order (planned_path pl)
         else probe_path p = planned_path pl)
      new done /\
    match fst out with
    | Ok rs =>
        map TestResult.Path rs = map probe_path new /\
        (rest = [] \/
         (0 < maxRequests flags /\
          Z.of_nat (List.length done) = maxRequests flags))
    | Panic =>
        exists new' p,
          new = new' ++ [p] /\
          existsb (probe_panics rt flags) new' = false /\
          probe_panics rt flags p = true
    end.
Proof.
  cbv zeta.
  destruct (testRoutes_run rt flags config s)
    as (done & rest & new & Hpl & Hiss & Hreal & Hend).
  exists done, rest, new.
  split; [assumption |]. split; [assumption |]. split.
  - clear - Hreal. induction Hreal as [|p pl new done Hp _ IH];
      constructor; [| assumption].
    destruct Hp as (Hs & Hr & Hpath & Hm & _). auto.
  - destruct (fst (testRoutes rt flags config s)) as [rs |]; [| exact Hend].
    destruct Hend as (<- & _ & Hstop).
    split; [| assumption]. rewrite map_map. reflexivity.
Qed.

(** The probes of the loop over the routes of a service, for one route that
    the toggles let through. *)
Lemma testRoutes_routes_run (rt : Runtime) (flags : Flags)
    (service : Service.t) (route : Route.t) (a : Acc) (s : State rt) :
  route_tested flags service route = true ->
  let out := testRoutes_routes rt flags service [route] a s in
  exists done rest new newr,
    route_plan service route = done ++ rest /\
    issued (snd out) = issued s ++ new /\
    Forall2 realizes new done /\
    (0 < maxRequests flags -> requestCount a <= maxRequests flags ->
     requestCount a + Z.of_nat (List.length done) <= maxRequests flags) /\
    match fst out with
    | Ok (Next a') =>
        rest = [] /\ results a' = results a ++ newr /\
        map probe_of newr = new /\
        existsb (probe_panics rt flags) new = false
    | Ok (Return rs) =>
        rest <> [] /\ 0 < maxRequests flags /\
        maxRequests flags <= requestCount a + Z.of_nat (List.length done) /\
        rs = results a ++ newr /\ map probe_of newr = new /\
        existsb (probe_panics rt flags) new = false
    | Panic =>
        exists new' p,
          new = new' ++ [p] /\
          existsb (probe_panics rt flags) new' = false /\
          probe_panics rt flags p = true
    end.
Proof.
  intros Htested. cbv zeta.
  destruct (testRoutes_routes_post rt flags service [route] a s)
    as (done & rest & new & newr & Hpl & Hiss & Hreal & Hbud & _ & Hout).
  cbn [filter] in Hpl. rewrite Htested in Hpl.
  cbn [flat_map] in Hpl. rewrite app_nil_r in Hpl.
  destruct (testRoutes_routes_ends rt flags service [route] a s)
    as (new2 & Hiss2 & Hend).
  rewrite Hiss in Hiss2. apply app_inv_head in Hiss2. subst new2.
  exists done, rest, new, newr.
  split; [assumption |]. split; [assumption |]. split; [assumption |].
  split; [assumption |].
  destruct (fst (testRoutes_routes rt flags service [route] a s))
    as [[a' | rs] |].
  - destruct Hout as (H1 & _ & H3 & H4). auto.
  - destruct Hout as (H1 & H2 & H3 & H4 & H5). auto 7.
  - exact Hend.
Qed.

Lemma route_plan_methods (service : Service.t) (route : Route.t) :
  map planned_method (route_plan service route)
  = flat_map (fun _ => derived_methods route) (Route.Paths route).
Proof.
  unfold route_plan. induction (Route.Paths route) as [|path paths IH];
    [reflexivity |].
  cbn [flat_map]. rewrite map_app, IH, map_map. cbn [planned_method].
  now rewrite map_id.
Qed.

Lemma realizes_methods (new : list Probe) (done : list Planned) :
  Forall2 realizes new done ->
  map probe_method new = map planned_method done.
Proof.
  intros Hreal. induction Hreal as [|p pl new done Hp _ IH]; [reflexivity |].
  cbn [map]. rewrite IH. destruct Hp as (_ & _ & _ & -> & _). reflexivity.
Qed.

(** C9: the methods of the probes made for a tested route are, path after
    path and in order, the five default methods GET, POST, PUT, DELETE,
    PATCH when the route declares no method, and the declared methods
    otherwise.  The loop goes on to the next route only when it has made
    all of these probes; it stops before that only when a positive budget
    is used up, or at a probe whose request could not be built; what it has
    then made is the beginning of the sequence. *)
Theorem route_methods_probed (rt : Runtime) (flags : Flags)
    (service : Service.t) (route : Route.t) (a : Acc) (s : State rt) :
  (if hasAuthPlugin route service then testAuth flags else testUnauth flags)
  = true ->
  let methods :=
    match Route.Methods route with
    | [] => [str "GET"; str "POST"; str "PUT"; str "DELETE"; str "PATCH"]
    | _ :: _ => Route.Methods route
    end in
  let sequence := flat_map (fun _ => methods) (Route.Paths route) in
  let out := testRoutes_routes rt flags service [route] a s in
  exists new,
    issued (snd out) = issued s ++ new /\
    map probe_method new = firstn (List.length new) sequence /\
    (0 < maxRequests flags -> requestCount a <= maxRequests flags ->
     requestCount a + Z.of_nat (List.length new) <= maxRequests flags) /\
    match fst out with
    | Ok (Next a') =>
        map probe_method new = sequence /\
        existsb (probe_panics rt flags) new = false /\
        exists newr,
          results a' = results a ++ newr /\
          map TestResult.Method newr = sequence
    | Ok (Return rs) =>
        (List.length new < List.length sequence)%nat /\
        0 < maxRequests flags /\
        maxRequests flags <= requestCount a + Z.of_nat (List.length new) /\
        existsb (probe_panics rt flags) new = false /\
        exists newr,
          rs = results a ++ newr /\
          map TestResult.Method newr = map probe_method new
    | Panic =>
        exists new' p,
          new = new' ++ [p] /\
          existsb (probe_panics rt flags) new' = false /\
          probe_panics rt flags p = true
    end.
Proof.
  intros Htested. cbv zeta.
  fold (derived_methods route).
  destruct (testRoutes_routes_run rt flags service route a s Htested)
    as (done & rest & new & newr & Hpl & Hiss & Hreal & Hbud & Hend).
  pose proof (route_plan_methods service route) as Hplan.
  pose proof (realizes_methods new done Hreal) as Hmeth.
  pose proof (Forall2_length Hreal) as Hlen.
  exists new.
  split; [assumption |]. split.
  { rewrite <- Hplan, Hpl, map_app, Hmeth, Hlen.
    rewrite <- (length_map planned_method done).
    rewrite firstn_app, firstn_all, Nat.sub_diag.
    cbn [firstn]. now rewrite app_nil_r. }
  split; [rewrite Hlen; assumption |].
  destruct (fst (testRoutes_routes rt flags service [route] a s))
    as [[a' | rs] |].
  - destruct Hend as (-> & Hres & Hnew & Hquiet).
    rewrite app_nil_r in Hpl.
    assert (Hall : map probe_method new
                   = flat_map (fun _ => derived_methods route)
                       (Route.Paths route))
      by now rewrite Hmeth, <- Hpl.
    split; [assumption |]. split; [assumption |].
    exists newr. split; [assumption |].
    rewrite <- Hall, <- Hnew, map_map. reflexivity.
  - destruct Hend as (Hrest & Hmax & Hle & Hres & Hnew & Hquiet).
    split.
    { rewrite <- Hplan, Hpl, length_map, length_app, Hlen.
      destruct rest; [congruence | cbn [List.length]; lia]. }
    split; [assumption |]. split; [rewrite Hlen; assumption |].
    split; [assumption |].
    exists newr. split; [assumption |].
    rewrite <- Hnew, map_map. reflexivity.
  - exact Hend.
Qed.

Lemma route_methods_probed_witness :
  let flags := example_flags true 0 in
  let out :=
    testRoutes_routes example_runtime flags example_service [example_route]
      (mkAcc [] 0) (initial_state example_runtime 0%nat) in
  let methods :=
    [str "GET"; str "POST"; str "PUT"; str "DELETE"; str "PATCH"] in
  let sequence := methods ++ methods ++ [] in
  exists new,
    issued (snd out) = [] ++ new /\
    map probe_method new = firstn (List.length new) sequence /\
    (0 < 0 -> 0 <= 0 -> 0 + Z.of_nat (List.length new) <= 0) /\
    match fst out with
    | Ok (Next a') =>
        map probe_method new = sequence /\
        existsb (probe_panics example_runtime flags) new = false /\
        exists newr,
          results a' = [] ++ newr /\
          map TestResult.Method newr = sequence
    | Ok (Return rs) =>
        (List.length new < List.length sequence)%nat /\
        0 < 0 /\
        0 <= 0 + Z.of_nat (List.length new) /\
        existsb (probe_panics example_runtime flags) new = false /\
        exists newr,
          rs = [] ++ newr /\
          map TestResult.Method newr = map probe_method new
    | Panic =>
        exists new' p,
          new = new' ++ [p] /\
          existsb (probe_panics example_runtime flags) new' = false /\
          probe_panics example_runtime flags p = true
    end.
Proof.
  cbv zeta.
  apply (route_methods_probed example_runtime (example_flags true 0)
           example_service example_route (mkAcc [] 0)
           (initial_state example_runtime 0%nat)).
  reflexivity.
Defined.

(** X14: a budget of zero or less is no budget.  A run that returns has
    made the probes of the whole plan, in the order of the plan, none of
    which panicked, and returns one outcome for each.  A run fails to
    return only at a probe of the plan that panics: a probe with the method
    POST, PUT or PATCH, outside dry-run mode, whose request
    [http.NewRequest] refuses; it is the last probe made, and the first
    such probe of the run. *)
Theorem testRoutes_unlimited (rt : Runtime) (flags : Flags)
    (config : KongConfig.t) (s : State rt) :
  maxRequests flags <= 0 ->
  let out := testRoutes rt flags config s in
  match fst out with
  | Ok rs =>
      Forall2 realizes (map probe_of rs) (plan flags config) /\
      issued (snd out) = issued s ++ map probe_of rs /\
      existsb (probe_panics rt flags) (map probe_of rs) = false
  | Panic =>
      exists done rest new p,
        plan flags config = done ++ rest /\
        issued (snd out) = issued s ++ new ++ [p] /\
        Forall2 realizes (new ++ [p]) done /\
        existsb (probe_panics rt flags) new = false /\
        dryRun flags = false /\
        In (probe_method p) [str "POST"; str "PUT"; str "PATCH"] /\
        NewRequest_error rt (probe_method p) (baseURL flags ++ probe_path p)
        <> None
  end.
Proof.
  intros Hmax. cbv zeta.
  destruct (testRoutes_run rt flags config s)
    as (done & rest & new & Hpl & Hiss & Hreal & Hend).
  destruct (fst (testRoutes rt flags config s)) as [rs |].
  - destruct Hend as (Hnew & Hquiet & [-> | [H0 _]]); [| lia].
    rewrite app_nil_r in Hpl. rewrite Hpl, Hnew. auto.
  - destruct Hend as (new' & p & -> & Hquiet & Hp).
    exists done, rest, new', p.
    split; [assumption |]. split; [assumption |]. split; [assumption |].
    split; [assumption |].
    unfold probe_panics in Hp.
    apply andb_true_iff in Hp as [Hp Hnew].
    apply andb_true_iff in Hp as [Hdry Hbody].
    apply negb_true_iff in Hdry. split; [assumption |]. split.
    + unfold has_body in Hbody.
      rewrite !orb_true_iff, !gostring_eqb_eq in Hbody. simpl.
      intuition auto.
    + destruct (NewRequest_error rt (probe_method p)
                  (baseURL flags ++ probe_path p)); [discriminate |].
      discriminate Hnew.
Qed.

Lemma testRoutes_unlimited_witness :
  let rt := example_runtime in
  let flags := example_flags false (-5) in
  let out := testRoutes rt flags example_config (initial_state rt 0%nat) in
  match fst out with
  | Ok rs =>
      Forall2 realizes (map probe_of rs) (plan flags example_config) /\
      issued (snd out) = [] ++ map probe_of rs /\
      existsb (probe_panics rt flags) (map probe_of rs) = false
  | Panic =>
      exists done rest new p,
        plan flags example_config = done ++ rest /\
        issued (snd out) = [] ++ new ++ [p] /\
        Forall2 realizes (new ++ [p]) done /\
        existsb (probe_panics rt flags) new = false /\
        dryRun flags = false /\
        In (probe_method p) [str "POST"; str "PUT"; str "PATCH"] /\
        NewRequest_error rt (probe_method p) (baseURL flags ++ probe_path p)
        <> None
  end.
Proof.
  cbv zeta.
  apply (testRoutes_unlimited example_runtime (example_flags false (-5))
           example_config (initial_state example_runtime 0%nat)).
  cbn. lia.
Defined.

(** ** The message of an error response *)

(** X15: the message [testEndpoint] takes from the body of a response with
    status 400 or more.  An empty body gives none.  A body [json.Unmarshal]
    rejects is the message itself.  When the decoded object has a non-empty
    array under "errors", the message is the string under "message" of its
    first element, and there is none when that element is no object or has
    no such string: the "message" of the object itself is not looked at.
    Otherwise the message is the string under "message" of the object, if
    it has one. *)
Theorem error_message_precedence (rt : Runtime) (body old : gostring) :
  (body = [] -> error_message rt body old = old) /\
  (body <> [] -> json_Unmarshal rt body = None ->
   error_message rt body old = body) /\
  (forall errorResp first rest,
     body <> [] -> json_Unmarshal rt body = Some errorResp ->
     index errorResp (str "errors") = Some (AnySlice (first :: rest)) ->
     error_message rt body old
     = match first with
       | AnyMap errorMap =>
           match index errorMap (str "message") with
           | Some (AnyString msg) => msg
           | _ => old
           end
       | _ => old
       end) /\
  (forall errorResp,
     body <> [] -> json_Unmarshal rt body = Some errorResp ->
     (forall first rest,
        index errorResp (str "errors") <> Some (AnySlice (first :: rest))) ->
     error_message rt body old
     = match index errorResp (str "message") with
       | Some (AnyString msg) => msg
       | _ => old
       end).
Proof.
  unfold error_message, message_field.
  split; [intros ->; reflexivity |].
  assert (Hlen : body <> [] -> (0 <? List.length body)%nat = true).
  { destruct body; [congruence | reflexivity]. }
  split; [intros Hb Hj; rewrite (Hlen Hb), Hj; reflexivity |].
  split.
  - intros errorResp first rest Hb Hj He. rewrite (Hlen Hb), Hj, He.
    destruct first; reflexivity.
  - intros errorResp Hb Hj He. rewrite (Hlen Hb), Hj.
    destruct (index errorResp (str "errors")) as [[| | | | [|first rest] |] |];
      try reflexivity.
    exfalso. exact (He first rest eq_refl).
Qed.

(** ** [main] *)


(** A dry run of [main] on the example file: the placeholder of the file is
    resolved before the text is decoded, and all eleven planned probes are
    in the summary. *)
Example main_dry_run :
  fst (main example_host example_runtime (example_flags true 0)
         (str "kong.yaml") (initial_state example_runtime 0%nat))
  = Ok (Summarised
          (mkSummary 11
             (mkTally 0 0 0 [(str "accounts", 11)] [(0, 11)]) [])).
Proof. reflexivity. Qed.

Example main_missing_file :
  fst (main example_host example_runtime (example_flags true 0)
         (str "missing.yaml") (initial_state example_runtime 0%nat))
  = Ok (Exited 1
          (str "Error reading Kong configuration: "
           ++ str "open: no such file or directory" ++ [newline])).
Proof. reflexivity. Qed.

(** The request of a probe of an authenticated route with a body. *)
Example request_of_login :
  request_of (example_flags false 0)
    (mkProbe (str "accounts") (str "login") (str "/login") (str "POST") true)
  = http.mkRequest (str "POST") (str "http://localhost:8080/login")
      (Some sample_body)
      [(str "Authorization", str "Bearer token");
       (str "Content-Type", str "application/json")].
Proof. reflexivity. Qed.

(** The log of a run under a budget of two: request, pause, request,
    pause. *)
Example testRoutes_events_budget_two :
  map (fun e => match e with Requested _ => true | Slept _ => false end)
    (event_log
       (snd (testRoutes (recording example_runtime) (example_flags false 2)
               example_config
               (mkState ((0%nat, []) : World (recording example_runtime))
                  [] []))))
  = [true; false; true; false].
Proof. reflexivity. Qed.

(** ** [handleTemplating] on a whole text *)

Lemma replace_from_plain (repl : gostring -> gostring) (text rest : gostring) :
  forallb (fun c => negb (Ascii.eqb c "$")) text = true ->
  regexp.replace_from repl 0 (text ++ rest)
  = text ++ regexp.replace_from repl 0 rest.
Proof.
  induction text as [|c text IH]; [reflexivity |].
  cbn [forallb]. intros H. apply andb_true_iff in H as [Hc H].
  cbn [app]. rewrite replace_from_no_match.
  - now rewrite (IH H).
  - apply re_match_not_open.
    change (str "${") with ["$"%char; "{"%char].
    cbn [strings.HasPrefix]. apply negb_true_iff in Hc. now rewrite Hc.
Qed.

(** X17: a text written as a sequence of plain texts without dollar signs
    and of placeholders the pattern accepts is resolved piece by piece:
    every plain text stays, and every placeholder becomes the value of its
    variable, or the fallback address, or the generic placeholder, whatever
    default it carries. *)
Theorem handleTemplating_pieces (Getenv : gostring -> gostring)
    (pieces : list Piece) :
  forallb piece_ok pieces = true ->
  handleTemplating Getenv (flat_map piece_source pieces)
  = flat_map (piece_value Getenv) pieces.
Proof.
  induction pieces as [|piece pieces IH]; [reflexivity |].
  cbn [forallb flat_map]. intros H. apply andb_true_iff in H as [Hp H].
  specialize (IH H). destruct piece as [text | name dflt];
    cbn [piece_source piece_value piece_ok] in *.
  - unfold handleTemplating, regexp.ReplaceAllFunc in *.
    now rewrite replace_from_plain, IH.
  - apply andb_true_iff in Hp as [Hn Hd].
    now rewrite handleTemplating_head, IH.
Qed.

Lemma handleTemplating_pieces_witness :
  handleTemplating host_env
    (flat_map piece_source
       [Plain (str "host: "); Hole (str "HOST") None; Plain (str " port: ");
        Hole (str "PORT") (Some ("="%char, str "8080"))])
  = flat_map (piece_value host_env)
      [Plain (str "host: "); Hole (str "HOST") None; Plain (str " port: ");
       Hole (str "PORT") (Some ("="%char, str "8080"))].
Proof.
  apply (handleTemplating_pieces host_env
           [Plain (str "host: "); Hole (str "HOST") None;
            Plain (str " port: ");
            Hole (str "PORT") (Some ("="%char, str "8080"))]).
  reflexivity.
Defined.

(** ** Placeholders and their operators *)

(** Appends of lists written out with their conses, nested to the right. *)
Ltac flatten_app :=
  repeat first [rewrite <- app_assoc | progress cbn [app]].

(** With an operator byte other than the question mark and the equals sign
    behind the colon, the pattern has no match at the opening of the
    placeholder. *)
Lemma re_match_other_operator (name : gostring) (op : ascii)
    (rest : gostring) :
  valid_name name = true -> regexp.op_byte op = false ->
  regexp.re_match ("$"%char :: "{"%char :: name ++ ":"%char :: op :: rest)
  = None.
Proof.
  intros Hn Hop. unfold regexp.re_match. unfold valid_name in Hn.
  apply andb_true_iff in Hn as [Hne Hn].
  rewrite (span_all regexp.name_byte name (":"%char :: op :: rest) Hn
             eq_refl).
  destruct name; [discriminate |]. now rewrite Hop.
Qed.

(** C4: where the scan of [handleTemplating] comes to a placeholder with a
    name (not empty, without colon and closing brace), the text before and
    the text after the placeholder are handled on their own, and:
    - when the placeholder is the name alone, or the name with the operator
      "?" or "=" and a default without closing brace, it is replaced by the
      value of the environment variable of that name when that is not empty,
      else by the fallback service address when the name contains
      SERVICE_ADDRESS, else by the generic placeholder; the default plays no
      part;
    - when the placeholder has another operator and no further dollar sign,
      it stays in the text as it is written, whatever the environment. *)
Theorem handleTemplating_placeholder (Getenv : gostring -> gostring)
    (before : gostring) (name : gostring) (dflt : option (ascii * gostring))
    (after : gostring) :
  valid_name name = true ->
  scan_reaches 0 (before ++ placeholder name dflt ++ after)
    (List.length before) = true ->
  (valid_default dflt = true ->
   handleTemplating Getenv (before ++ placeholder name dflt ++ after)
   = handleTemplating Getenv before
     ++ (match Getenv name with
         | _ :: _ => Getenv name
         | [] =>
             if strings.Contains name (str "SERVICE_ADDRESS")
             then str "http://services.sms.community:10000"
             else str "http://placeholder"
         end)
     ++ handleTemplating Getenv after) /\
  (forall op d,
     dflt = Some (op, d) -> regexp.op_byte op = false ->
     forallb (fun c => negb (Ascii.eqb c "$")) (name ++ op :: d) = true ->
     handleTemplating Getenv (before ++ placeholder name dflt ++ after)
     = handleTemplating Getenv before
       ++ placeholder name dflt ++ handleTemplating Getenv after).
Proof.
  intros Hn Hr.
  assert (Hsplit :
            handleTemplating Getenv (before ++ placeholder name dflt ++ after)
            = handleTemplating Getenv before
              ++ handleTemplating Getenv (placeholder name dflt ++ after)).
  { unfold handleTemplating, regexp.ReplaceAllFunc.
    now apply replace_from_reaches. }
  rewrite Hsplit. split.
  - intros Hd. f_equal.
    exact (handleTemplating_head Getenv name dflt after Hn Hd).
  - intros op d -> Hop Hplain. f_equal.
    unfold handleTemplating, regexp.ReplaceAllFunc, placeholder.
    change (str "${") with ["$"%char; "{"%char].
    change (str "}") with ["}"%char].
    replace ((["$"%char; "{"%char] ++ name ++ (":"%char :: op :: d)
              ++ ["}"%char]) ++ after)
      with ("$"%char :: "{"%char :: name
            ++ ":"%char :: op :: (d ++ ["}"%char] ++ after))
      by (flatten_app; reflexivity).
    rewrite replace_from_no_match
      by now apply re_match_other_operator.
    replace ("{"%char :: name ++ ":"%char :: op :: (d ++ ["}"%char] ++ after))
      with (("{"%char :: name ++ ":"%char :: op :: d ++ ["}"%char]) ++ after)
      by (flatten_app; reflexivity).
    rewrite replace_from_plain.
    + flatten_app. reflexivity.
    + rewrite forallb_app in Hplain.
      apply andb_true_iff in Hplain as [Hname Hopd].
      cbn [forallb] in Hopd. apply andb_true_iff in Hopd as [Hopc Hd].
      cbn [forallb]. rewrite forallb_app. cbn [forallb].
      rewrite forallb_app. cbn [forallb].
      rewrite Hname, Hopc, Hd. reflexivity.
Qed.

Lemma handleTemplating_placeholder_witness :
  handleTemplating host_env
    (str "host: ${HOST} port: "
     ++ placeholder (str "PORT") (Some ("="%char, str "8080")) ++ [])
  = handleTemplating host_env (str "host: ${HOST} port: ")
    ++ str "http://placeholder" ++ handleTemplating host_env []
  /\
  handleTemplating host_env
    (str "host: "
     ++ placeholder (str "HOST") (Some ("-"%char, str "fallback")) ++ [])
  = handleTemplating host_env (str "host: ")
    ++ placeholder (str "HOST") (Some ("-"%char, str "fallback"))
    ++ handleTemplating host_env [].
Proof.
  split.
  - apply (proj1 (handleTemplating_placeholder host_env
                    (str "host: ${HOST} port: ") (str "PORT")
                    (Some ("="%char, str "8080")) [] eq_refl eq_refl)).
    reflexivity.
  - apply (proj2 (handleTemplating_placeholder host_env (str "host: ")
                    (str "HOST") (Some ("-"%char, str "fallback")) []
                    eq_refl eq_refl)
             "-"%char (str "fallback")); reflexivity.
Defined.

(** C4, as stated for every operator and every occurrence, fails.  With HOST
    set to "localhost", the placeholder "${HOST:-fallback}" is left as it is
    written, not replaced by the value of HOST; and the occurrence of
    "${HOST}" that begins inside the placeholder "${A${HOST}" is not
    replaced either: the scan takes the longer placeholder, whose name is
    that of no variable. *)
Lemma handleTemplating_placeholder_unresolved :
  host_env (str "HOST") = str "localhost" /\
  str "${HOST:-fallback}"
  = [] ++ placeholder (str "HOST") (Some ("-"%char, str "fallback")) ++ [] /\
  handleTemplating host_env (str "${HOST:-fallback}")
  = str "${HOST:-fallback}" /\
  handleTemplating host_env (str "${HOST:-fallback}")
  <> handleTemplating host_env [] ++ str "localhost"
     ++ handleTemplating host_env [] /\
  str "${A${HOST}" = str "${A" ++ placeholder (str "HOST") None ++ [] /\
  handleTemplating host_env (str "${A${HOST}") = str "http://placeholder" /\
  handleTemplating host_env (str "${A${HOST}")
  <> handleTemplating host_env (str "${A") ++ str "localhost"
     ++ handleTemplating host_env [].
Proof.
  split; [reflexivity |]. split; [reflexivity |]. split; [reflexivity |].
  split; [discriminate |]. split; [reflexivity |]. split; [reflexivity |].
  discriminate.
Qed.
